(** * Legg.io: the script store (App.tsx) and the prompter (Prompter.tsx)

    A shallow embedding of the two React components that carry state:
    - [App]      the script collection, its handlers, the load-time
                 migration and what the auto-save effect writes;
    - [Prompter] the playback controller ([animate], [analyzeVolume],
                 [handleKeyDown]), the recorder and the background stream.

    Conventions.
    - A JavaScript [number] holding a [Date.now()] stamp or a pixel offset
      is a [Z]; [scrollSpeed], [silenceThresholdSeconds] and the scroll
      accumulator are [Q].  The sliders and the +/- keys only produce
      multiples of 0.5 and the accumulator only multiples of 0.25, which
      binary floating point represents exactly, so [Q] arithmetic is the
      arithmetic of the program on those values.
    - A string is a [string]; a character stands for one UTF-16 code unit.
    - What the platform answers ([Date.now()], [crypto.randomUUID()], a
      resolved or rejected [getUserMedia]) is an argument of the handler
      or of the event that receives it. *)

From Stdlib Require Import List String Ascii Bool ZArith QArith Qround Qminmax Lia Lqa Arith.
Import ListNotations.

Local Open Scope string_scope.
Local Open Scope Z_scope.

(* ================================================================== *)
(** ** App.tsx: the script store *)
(* ================================================================== *)

Module App.

(** [interface SavedScript] of types.ts. *)
Record SavedScript : Type := mkScript {
  id : string;
  title : string;
  content : string;
  lastModified : Z
}.

(** The two [useState] cells of [App] that the handlers touch. *)
Record Store : Type := mkStore {
  scripts : list SavedScript;
  activeScriptId : string
}.

Definition MAX_SCRIPTS : nat := 10.

(** [{ ...s, content, lastModified: Date.now() }] *)
Definition withContent (c : string) (now : Z) (s : SavedScript) : SavedScript :=
  mkScript (id s) (title s) c now.

(** [{ ...s, title, lastModified: Date.now() }] *)
Definition withTitle (t : string) (now : Z) (s : SavedScript) : SavedScript :=
  mkScript (id s) t (content s) now.

Definition handleUpdateScript (c : string) (now : Z) (st : Store) : Store :=
  mkStore
    (map (fun s => if String.eqb (id s) (activeScriptId st)
                   then withContent c now s else s)
         (scripts st))
    (activeScriptId st).

Definition handleRenameScript (t : string) (now : Z) (st : Store) : Store :=
  mkStore
    (map (fun s => if String.eqb (id s) (activeScriptId st)
                   then withTitle t now s else s)
         (scripts st))
    (activeScriptId st).

(** [uuid] is what [crypto.randomUUID()] returns, [now] what [Date.now()]
    returns. *)
Definition handleCreateScript (uuid : string) (now : Z) (st : Store) : Store :=
  if (MAX_SCRIPTS <=? List.length (scripts st))%nat then st
  else mkStore (mkScript uuid "New Script" "" now :: scripts st) uuid.

(** An event handler either runs to its end or throws after the state
    writes it has already queued. *)
Inductive Outcome : Type :=
| Done (st : Store)
| Throws (st : Store).

Definition state_of (o : Outcome) : Store :=
  match o with Done st => st | Throws st => st end.

(** [handleDeleteScript].  In the clear-in-place branch the two updaters
    read the clock one after the other ([now1], then [now2]).  In the other
    branch [newScripts[0].id] is a [TypeError] when the filter left
    nothing; [setScripts(newScripts)] has been called by then. *)
Definition handleDeleteScript (now1 now2 : Z) (i : string) (st : Store) : Outcome :=
  if (List.length (scripts st) <=? 1)%nat then
    Done (handleRenameScript "Untitled Script" now2
            (handleUpdateScript "" now1 st))
  else
    let newScripts := filter (fun s => negb (String.eqb (id s) i)) (scripts st) in
    if String.eqb i (activeScriptId st) then
      match newScripts with
      | [] => Throws (mkStore newScripts (activeScriptId st))
      | s :: _ => Done (mkStore newScripts (id s))
      end
    else Done (mkStore newScripts (activeScriptId st)).

(** [onSelect={setActiveScriptId}] *)
Definition handleSelectScript (i : string) (st : Store) : Store :=
  mkStore (scripts st) i.

(** *** Persistence *)

(** One record of the array under [STORAGE_KEY], as [JSON.parse] returns
    it.  Data written before scripts had titles has no [title] property. *)
Record StoredScript : Type := mkStored {
  st_id : string;
  st_title : option string;
  st_content : string;
  st_lastModified : Z
}.

(** What the auto-save effect leaves under the key, read back by
    [JSON.parse]: every property of every script, [title] included. *)
Definition stored (s : SavedScript) : StoredScript :=
  mkStored (id s) (Some (title s)) (content s) (lastModified s).

Definition persist (l : list SavedScript) : list StoredScript := map stored l.

Definition newline : ascii := "010"%char.

(** [s.split('\n')[0]] *)
Fixpoint firstLine (s : string) : string :=
  match s with
  | EmptyString => EmptyString
  | String c r => if Ascii.eqb c newline then EmptyString else String c (firstLine r)
  end.

(** Truthiness of a string: every string but the empty one. *)
Definition truthy (s : string) : bool := negb (String.eqb s "").

(** [s.content ? s.content.split('\n')[0].substring(0, 30) : 'Untitled Script'] *)
Definition titleFromContent (c : string) : string :=
  if truthy c then String.substring 0 30 (firstLine c) else "Untitled Script".

(** [{ ...s, title: s.title || (...) }]: a missing property reads as
    [undefined], which is falsy, and so is the empty string. *)
Definition migrate (s : StoredScript) : SavedScript :=
  mkScript (st_id s)
           (match st_title s with
            | Some t => if truthy t then t else titleFromContent (st_content s)
            | None => titleFromContent (st_content s)
            end)
           (st_content s)
           (st_lastModified s).

(** The initializer of [scripts].  [saved] is [None] when the key is
    missing or its text does not parse; [uuid] and [now] feed the default
    script. *)
Definition loadScripts (saved : option (list StoredScript)) (uuid : string) (now : Z)
  : list SavedScript :=
  match saved with
  | Some parsed => map migrate parsed
  | None => [mkScript uuid "Welcome to Legg.io" "" now]
  end.

(** The initializer of [activeScriptId]. *)
Definition initialActive (l : list SavedScript) : string :=
  match l with
  | s :: _ => id s
  | [] => ""
  end.

Definition initStore (saved : option (list StoredScript)) (uuid : string) (now : Z) : Store :=
  let l := loadScripts saved uuid now in mkStore l (initialActive l).

(** Closing the tab and opening it again: the collection is read back from
    what the auto-save effect wrote. *)
Definition reload (uuid : string) (now : Z) (st : Store) : Store :=
  initStore (Some (persist (scripts st))) uuid now.

(** *** The states the application goes through

    The first launch finds no stored collection, and
    [crypto.randomUUID()] never returns an id already in use.  [okTitle]
    is what the caller of [onRename] lets through, [okSelect] what the
    caller of [onSelect] lets through. *)
Definition ids (st : Store) : list string := map id (scripts st).

Definition count (st : Store) : nat := List.length (scripts st).

Inductive reachableWith (okTitle : string -> Prop)
                        (okSelect : Store -> string -> Prop) : Store -> Prop :=
| reach_first (uuid : string) (now : Z) :
    reachableWith okTitle okSelect (initStore None uuid now)
| reach_update (c : string) (now : Z) (st : Store) :
    reachableWith okTitle okSelect st ->
    reachableWith okTitle okSelect (handleUpdateScript c now st)
| reach_rename (t : string) (now : Z) (st : Store) :
    reachableWith okTitle okSelect st -> okTitle t ->
    reachableWith okTitle okSelect (handleRenameScript t now st)
| reach_create (uuid : string) (now : Z) (st : Store) :
    reachableWith okTitle okSelect st -> ~ In uuid (ids st) ->
    reachableWith okTitle okSelect (handleCreateScript uuid now st)
| reach_delete (now1 now2 : Z) (i : string) (st : Store) :
    reachableWith okTitle okSelect st ->
    reachableWith okTitle okSelect (state_of (handleDeleteScript now1 now2 i st))
| reach_select (i : string) (st : Store) :
    reachableWith okTitle okSelect st -> okSelect st i ->
    reachableWith okTitle okSelect (handleSelectScript i st)
| reach_reload (uuid : string) (now : Z) (st : Store) :
    reachableWith okTitle okSelect st ->
    reachableWith okTitle okSelect (reload uuid now st).

(** Any sequence of calls, with any arguments. *)
Definition reachableByCalls : Store -> Prop :=
  reachableWith (fun _ => True) (fun _ _ => True).

(** The sidebar and the drop-down of the editor pass [onSelect] the id of
    a script they list. *)
Definition listed (st : Store) (i : string) : Prop := In i (ids st).

Definition reachable : Store -> Prop := reachableWith (fun _ => True) listed.

(** [maxLength={50}] on the editor's title input: the value it hands to
    [onRename] has at most 50 characters. *)
Definition fitsTitleInput (t : string) : Prop := (String.length t <= 50)%nat.

Definition reachableFromEditor : Store -> Prop :=
  reachableWith fitsTitleInput listed.

Definition titlesBounded (st : Store) : Prop :=
  Forall (fun s => (String.length (title s) <= 50)%nat) (scripts st).

(** Distinct ids and 1 to 10 scripts. *)
Definition sized (st : Store) : Prop :=
  NoDup (ids st) /\ (1 <= count st <= MAX_SCRIPTS)%nat.

(** The selection is the id of a script of the collection. *)
Definition selected (st : Store) : Prop := In (activeScriptId st) (ids st).

Definition wellFormed (st : Store) : Prop := sized st /\ selected st.

(** The scripts of [l] whose id is not [i]: the filter of
    [handleDeleteScript]. *)
Definition without (i : string) (l : list SavedScript) : list SavedScript :=
  filter (fun s => negb (String.eqb (id s) i)) l.

(** *** Sample states *)

(** A store with ten scripts, reached by nine creations. *)
Definition fullStore : Store :=
  fold_left (fun st n => handleCreateScript (String n "") (Z.of_nat (nat_of_ascii n)) st)
            ["b"; "c"; "d"; "e"; "f"; "g"; "h"; "i"; "j"]%char
            (initStore None "a" 0).

End App.

(* ================================================================== *)
(** ** Prompter.tsx: playback, audio activity, recorder, background *)
(* ================================================================== *)

Module Prompter.

Local Open Scope Q_scope.

(** The scroll container, as far as the component reads and writes it. *)
Record Container : Type := mkContainer {
  scrollTop : Z;
  scrollHeight : Z;
  clientHeight : Z
}.

Definition maxScroll (c : Container) : Z := (scrollHeight c - clientHeight c)%Z.

(** Assigning [scrollTop]: the DOM keeps the offset between 0 and the
    scrollable extent. *)
Definition setScrollTop (v : Z) (c : Container) : Container :=
  mkContainer (Z.max 0 (Z.min v (maxScroll c))) (scrollHeight c) (clientHeight c).

Inductive TrackKind : Type := AudioTrack | VideoTrack.

Record Track : Type := mkTrack { trackId : nat; kind : TrackKind }.

Definition MediaStream : Type := list Track.

Definition isAudio (t : Track) : bool :=
  match kind t with AudioTrack => true | VideoTrack => false end.

Definition getAudioTracks (s : MediaStream) : list Track := filter isAudio s.

(** Calls into the platform, in the order the component issues them. *)
Inductive Effect : Type :=
| TrackStop (t : Track)
| PreviewSrc (s : option MediaStream)
| GetUserMedia (video : bool)
| GetDisplayMedia
| AudioContextClose
| RecorderStart
| RecorderStop.

(** The state cells and refs of [Prompter] that its handlers and effects
    read or write; fonts, layout, device lists, recorded chunks and the
    download link are display data and left out. *)
Record State : Type := mkState {
  (* configuration *)
  scrollSpeed : Q;
  silenceThresholdSeconds : Q;
  (* runtime *)
  isPlaying : bool;
  isAutoPaused : bool;
  currentVolume : Q;
  micPermission : option bool;
  (* recording and media *)
  isCameraOn : bool;
  isScreenShareOn : bool;
  isRecording : bool;
  (* refs *)
  containerRef : option Container;
  audioContextRef : bool;
  analyserRef : bool;
  lastNoiseTime : Z;
  scrollAccumulator : Q;
  videoPreviewRef : option (option MediaStream);
  mediaStreamRef : option MediaStream;
  mediaRecorderRef : option MediaStream;
  effects : list Effect
}.

Definition set_scrollSpeed (v : Q) (s : State) : State :=
  mkState v (silenceThresholdSeconds s) (isPlaying s) (isAutoPaused s)
    (currentVolume s) (micPermission s) (isCameraOn s) (isScreenShareOn s)
    (isRecording s) (containerRef s) (audioContextRef s) (analyserRef s)
    (lastNoiseTime s) (scrollAccumulator s) (videoPreviewRef s)
    (mediaStreamRef s) (mediaRecorderRef s) (effects s).

Definition set_silenceThresholdSeconds (v : Q) (s : State) : State :=
  mkState (scrollSpeed s) v (isPlaying s) (isAutoPaused s)
    (currentVolume s) (micPermission s) (isCameraOn s) (isScreenShareOn s)
    (isRecording s) (containerRef s) (audioContextRef s) (analyserRef s)
    (lastNoiseTime s) (scrollAccumulator s) (videoPreviewRef s)
    (mediaStreamRef s) (mediaRecorderRef s) (effects s).

Definition set_isPlaying (v : bool) (s : State) : State :=
  mkState (scrollSpeed s) (silenceThresholdSeconds s) v (isAutoPaused s)
    (currentVolume s) (micPermission s) (isCameraOn s) (isScreenShareOn s)
    (isRecording s) (containerRef s) (audioContextRef s) (analyserRef s)
    (lastNoiseTime s) (scrollAccumulator s) (videoPreviewRef s)
    (mediaStreamRef s) (mediaRecorderRef s) (effects s).

Definition set_isAutoPaused (v : bool) (s : State) : State :=
  mkState (scrollSpeed s) (silenceThresholdSeconds s) (isPlaying s) v
    (currentVolume s) (micPermission s) (isCameraOn s) (isScreenShareOn s)
    (isRecording s) (containerRef s) (audioContextRef s) (analyserRef s)
    (lastNoiseTime s) (scrollAccumulator s) (videoPreviewRef s)
    (mediaStreamRef s) (mediaRecorderRef s) (effects s).

Definition set_currentVolume (v : Q) (s : State) : State :=
  mkState (scrollSpeed s) (silenceThresholdSeconds s) (isPlaying s) (isAutoPaused s)
    v (micPermission s) (isCameraOn s) (isScreenShareOn s)
    (isRecording s) (containerRef s) (audioContextRef s) (analyserRef s)
    (lastNoiseTime s) (scrollAccumulator s) (videoPreviewRef s)
    (mediaStreamRef s) (mediaRecorderRef s) (effects s).

Definition set_micPermission (v : option bool) (s : State) : State :=
  mkState (scrollSpeed s) (silenceThresholdSeconds s) (isPlaying s) (isAutoPaused s)
    (currentVolume s) v (isCameraOn s) (isScreenShareOn s)
    (isRecording s) (containerRef s) (audioContextRef s) (analyserRef s)
    (lastNoiseTime s) (scrollAccumulator s) (videoPreviewRef s)
    (mediaStreamRef s) (mediaRecorderRef s) (effects s).

Definition set_isCameraOn (v : bool) (s : State) : State :=
  mkState (scrollSpeed s) (silenceThresholdSeconds s) (isPlaying s) (isAutoPaused s)
    (currentVolume s) (micPermission s) v (isScreenShareOn s)
    (isRecording s) (containerRef s) (audioContextRef s) (analyserRef s)
    (lastNoiseTime s) (scrollAccumulator s) (videoPreviewRef s)
    (mediaStreamRef s) (mediaRecorderRef s) (effects s).

Definition set_isScreenShareOn (v : bool) (s : State) : State :=
  mkState (scrollSpeed s) (silenceThresholdSeconds s) (isPlaying s) (isAutoPaused s)
    (currentVolume s) (micPermission s) (isCameraOn s) v
    (isRecording s) (containerRef s) (audioContextRef s) (analyserRef s)
    (lastNoiseTime s) (scrollAccumulator s) (videoPreviewRef s)
    (mediaStreamRef s) (mediaRecorderRef s) (effects s).

Definition set_isRecording (v : bool) (s : State) : State :=
  mkState (scrollSpeed s) (silenceThresholdSeconds s) (isPlaying s) (isAutoPaused s)
    (currentVolume s) (micPermission s) (isCameraOn s) (isScreenShareOn s)
    v (containerRef s) (audioContextRef s) (analyserRef s)
    (lastNoiseTime s) (scrollAccumulator s) (videoPreviewRef s)
    (mediaStreamRef s) (mediaRecorderRef s) (effects s).

Definition set_containerRef (v : option Container) (s : State) : State :=
  mkState (scrollSpeed s) (silenceThresholdSeconds s) (isPlaying s) (isAutoPaused s)
    (currentVolume s) (micPermission s) (isCameraOn s) (isScreenShareOn s)
    (isRecording s) v (audioContextRef s) (analyserRef s)
    (lastNoiseTime s) (scrollAccumulator s) (videoPreviewRef s)
    (mediaStreamRef s) (mediaRecorderRef s) (effects s).

Definition set_audioGraph (ctx analyser : bool) (s : State) : State :=
  mkState (scrollSpeed s) (silenceThresholdSeconds s) (isPlaying s) (isAutoPaused s)
    (currentVolume s) (micPermission s) (isCameraOn s) (isScreenShareOn s)
    (isRecording s) (containerRef s) ctx analyser
    (lastNoiseTime s) (scrollAccumulator s) (videoPreviewRef s)
    (mediaStreamRef s) (mediaRecorderRef s) (effects s).

Definition set_lastNoiseTime (v : Z) (s : State) : State :=
  mkState (scrollSpeed s) (silenceThresholdSeconds s) (isPlaying s) (isAutoPaused s)
    (currentVolume s) (micPermission s) (isCameraOn s) (isScreenShareOn s)
    (isRecording s) (containerRef s) (audioContextRef s) (analyserRef s)
    v (scrollAccumulator s) (videoPreviewRef s)
    (mediaStreamRef s) (mediaRecorderRef s) (effects s).

Definition set_scrollAccumulator (v : Q) (s : State) : State :=
  mkState (scrollSpeed s) (silenceThresholdSeconds s) (isPlaying s) (isAutoPaused s)
    (currentVolume s) (micPermission s) (isCameraOn s) (isScreenShareOn s)
    (isRecording s) (containerRef s) (audioContextRef s) (analyserRef s)
    (lastNoiseTime s) v (videoPreviewRef s)
    (mediaStreamRef s) (mediaRecorderRef s) (effects s).

Definition set_videoPreviewRef (v : option (option MediaStream)) (s : State) : State :=
  mkState (scrollSpeed s) (silenceThresholdSeconds s) (isPlaying s) (isAutoPaused s)
    (currentVolume s) (micPermission s) (isCameraOn s) (isScreenShareOn s)
    (isRecording s) (containerRef s) (audioContextRef s) (analyserRef s)
    (lastNoiseTime s) (scrollAccumulator s) v
    (mediaStreamRef s) (mediaRecorderRef s) (effects s).

Definition set_mediaStreamRef (v : option MediaStream) (s : State) : State :=
  mkState (scrollSpeed s) (silenceThresholdSeconds s) (isPlaying s) (isAutoPaused s)
    (currentVolume s) (micPermission s) (isCameraOn s) (isScreenShareOn s)
    (isRecording s) (containerRef s) (audioContextRef s) (analyserRef s)
    (lastNoiseTime s) (scrollAccumulator s) (videoPreviewRef s)
    v (mediaRecorderRef s) (effects s).

Definition set_mediaRecorderRef (v : option MediaStream) (s : State) : State :=
  mkState (scrollSpeed s) (silenceThresholdSeconds s) (isPlaying s) (isAutoPaused s)
    (currentVolume s) (micPermission s) (isCameraOn s) (isScreenShareOn s)
    (isRecording s) (containerRef s) (audioContextRef s) (analyserRef s)
    (lastNoiseTime s) (scrollAccumulator s) (videoPreviewRef s)
    (mediaStreamRef s) v (effects s).

(** Append calls to the log of platform calls. *)
Definition emit (l : list Effect) (s : State) : State :=
  mkState (scrollSpeed s) (silenceThresholdSeconds s) (isPlaying s) (isAutoPaused s)
    (currentVolume s) (micPermission s) (isCameraOn s) (isScreenShareOn s)
    (isRecording s) (containerRef s) (audioContextRef s) (analyserRef s)
    (lastNoiseTime s) (scrollAccumulator s) (videoPreviewRef s)
    (mediaStreamRef s) (mediaRecorderRef s) (effects s ++ l).

(** *** Background stream *)

Definition stopCurrentStream (s : State) : State :=
  let s1 := match mediaStreamRef s with
            | Some tracks => set_mediaStreamRef None (emit (map TrackStop tracks) s)
            | None => s
            end in
  match videoPreviewRef s1 with
  | Some _ => set_videoPreviewRef (Some None) (emit [PreviewSrc None] s1)
  | None => s1
  end.

(** [initAudioAnalysisOnly] up to its [await]: the old audio graph is
    closed and a microphone-only stream requested. *)
Definition initAudioAnalysisOnly (s : State) : State :=
  emit [GetUserMedia false]
       (if audioContextRef s then emit [AudioContextClose] s else s).

(** [initAudioAnalysisFromStream]; with an audio track it installs the
    analyser and starts the [analyzeVolume] loop, whose samples arrive as
    events. *)
Definition initAudioAnalysisFromStream (stream : MediaStream) (s : State) : State :=
  match getAudioTracks stream with
  | _ :: _ => set_micPermission (Some true) (set_audioGraph true true s)
  | [] => if isScreenShareOn s then initAudioAnalysisOnly s else s
  end.

(** The rest of [initAudioAnalysisOnly]: [res] is the stream, or [None]
    when the request was rejected. *)
Definition micAnswer (res : option MediaStream) (s : State) : State :=
  match res with
  | Some stream => initAudioAnalysisFromStream stream s
  | None => set_micPermission (Some false) s
  end.

Definition attachPreview (stream : MediaStream) (s : State) : State :=
  match videoPreviewRef s with
  | Some _ => set_videoPreviewRef (Some (Some stream)) (emit [PreviewSrc (Some stream)] s)
  | None => s
  end.

(** [startCamera] up to its [await]. *)
Definition startCamera (s : State) : State :=
  emit [GetUserMedia true] (stopCurrentStream s).

(** [startScreenShare] up to its [await]. *)
Definition startScreenShare (s : State) : State :=
  emit [GetDisplayMedia] (stopCurrentStream s).

(** The effect on [isCameraOn, isScreenShareOn, selectedVideoId,
    selectedAudioId]. *)
Definition modeEffect (s : State) : State :=
  if isCameraOn s then startCamera s
  else if isScreenShareOn s then startScreenShare s
  else initAudioAnalysisOnly (stopCurrentStream s).

(** A [set...] call that changes a dependency re-runs the effect. *)
Definition rerunIf (changed : bool) (s : State) : State :=
  if changed then modeEffect s else s.

(** The rest of [startCamera]. *)
Definition cameraAnswer (res : option MediaStream) (s : State) : State :=
  match res with
  | Some stream =>
      initAudioAnalysisFromStream stream
        (attachPreview stream (set_mediaStreamRef (Some stream) s))
  | None => rerunIf (isCameraOn s) (set_isCameraOn false s)
  end.

(** The rest of [startScreenShare]. *)
Definition screenAnswer (res : option MediaStream) (s : State) : State :=
  match res with
  | Some stream =>
      initAudioAnalysisOnly
        (attachPreview stream (set_mediaStreamRef (Some stream) s))
  | None => rerunIf (isScreenShareOn s) (set_isScreenShareOn false s)
  end.

(** [onended] of the shared video track. *)
Definition screenEnded (s : State) : State :=
  rerunIf (isScreenShareOn s)
    (initAudioAnalysisOnly (stopCurrentStream (set_isScreenShareOn false s))).

Definition handleToggleCamera (s : State) : State :=
  set_isCameraOn (negb (isCameraOn s))
    (if negb (isCameraOn s) then set_isScreenShareOn false s else s).

Definition handleToggleScreen (s : State) : State :=
  set_isScreenShareOn (negb (isScreenShareOn s))
    (if negb (isScreenShareOn s) then set_isCameraOn false s else s).

(** *** Audio activity *)

Definition sum (data : list Z) : Z := fold_left Z.add data 0%Z.

(** [sum / dataArray.length].  The analyser has 128 bins; on an empty
    array JavaScript yields NaN and [Q] yields 0, and neither exceeds 10. *)
Definition average (data : list Z) : Q :=
  inject_Z (sum data) / inject_Z (Z.of_nat (List.length data)).

Definition Qgtb (a b : Q) : bool := negb (Qle_bool a b).

(** One run of [analyzeVolume]: [data] is what [getByteFrequencyData]
    filled in, [now] what [Date.now()] returns. *)
Definition analyzeVolume (now : Z) (data : list Z) (s : State) : State :=
  if analyserRef s then
    let s1 := set_currentVolume (average data) s in
    if Qgtb (average data) 10
    then set_isAutoPaused false (set_lastNoiseTime now s1)
    else s1
  else s.

(** *** Recording *)

(** [built] tells whether [new MediaRecorder] and [start()] went through.
    This is [startRecording] on the cells of [State]: its two writes
    [setRecordedChunks([])] and [setDownloadUrl(null)], made once a stream
    is known to be held and before the recorder is built, are writes to
    cells of [PrompterView.Take] and are carried by [PrompterView.startTake]. *)
Definition startRecording (built : bool) (s : State) : State :=
  match mediaStreamRef s with
  | None => s
  | Some stream =>
      if built
      then set_isRecording true
             (set_mediaRecorderRef (Some stream) (emit [RecorderStart] s))
      else s
  end.

Definition stopRecording (s : State) : State :=
  match mediaRecorderRef s with
  | Some _ => set_isPlaying false (set_isRecording false (emit [RecorderStop] s))
  | None => s
  end.

Definition toggleRecording (built : bool) (s : State) : State :=
  if isRecording s then stopRecording s else startRecording built s.

(** *** Keyboard *)

Record KeyboardEvent : Type := mkKey { code : string; key : string }.

Definition nudge (d : Z) (s : State) : State :=
  match containerRef s with
  | Some c => set_containerRef (Some (setScrollTop (scrollTop c + d) c)) s
  | None => s
  end.

Definition handleKeyDown (e : KeyboardEvent) (s : State) : State :=
  let s1 := if String.eqb (code e) "Space"
            then set_isPlaying (negb (isPlaying s)) s else s in
  let s2 := if String.eqb (code e) "ArrowUp" then nudge (-100) s1 else s1 in
  let s3 := if String.eqb (code e) "ArrowDown" then nudge 100 s2 else s2 in
  let s4 := if String.eqb (key e) "+" || String.eqb (code e) "NumpadAdd"
               || String.eqb (key e) "="
            then set_scrollSpeed (Qmin 20 (scrollSpeed s3 + (1#2))) s3 else s3 in
  if String.eqb (key e) "-" || String.eqb (code e) "NumpadSubtract"
     || String.eqb (key e) "_"
  then set_scrollSpeed (Qmax 0 (scrollSpeed s4 - (1#2))) s4 else s4.

(** *** Animation loop *)

Definition silenceLimitMs (s : State) : Q := silenceThresholdSeconds s * 1000.

(** [micPermission && timeSinceNoise > silenceLimitMs], as a condition. *)
Definition shouldPauseForSilence (now : Z) (s : State) : bool :=
  match micPermission s with
  | Some true => Qgtb (inject_Z (now - lastNoiseTime s)) (silenceLimitMs s)
  | _ => false
  end.

(** One run of [animate]; the second component is [pixelsToScroll], the
    amount added to [scrollTop] by this frame (0 when the frame adds
    nothing).  [updateProgressBar] only restyles the progress bar. *)
Definition animate (now : Z) (s : State) : State * Z :=
  match containerRef s with
  | None => (s, 0%Z)
  | Some c =>
      if isPlaying s then
        if shouldPauseForSilence now s then (set_isAutoPaused true s, 0%Z)
        else
          let s1 := set_isAutoPaused false s in
          let acc := scrollAccumulator s1 + scrollSpeed s1 * (1#2) in
          if Qle_bool 1 acc then
            let pixelsToScroll := Qfloor acc in
            (set_scrollAccumulator (acc - inject_Z pixelsToScroll)
               (set_containerRef
                  (Some (setScrollTop (scrollTop c + pixelsToScroll) c)) s1),
             pixelsToScroll)
          else (set_scrollAccumulator acc s1, 0%Z)
      else (s, 0%Z)
  end.

(** [animate] frame after frame, with the amounts scrolled. *)
Fixpoint frames (nows : list Z) (s : State) : State * list Z :=
  match nows with
  | [] => (s, [])
  | now :: rest =>
      let (s1, d) := animate now s in
      let (s2, ds) := frames rest s1 in
      (s2, d :: ds)
  end.

Definition total (ds : list Z) : Z := fold_right Z.add 0%Z ds.

(** *** Events *)

Inductive Event : Type :=
| Frame (now : Z)
| Sample (now : Z) (data : list Z)
| KeyDown (e : KeyboardEvent)
| ClickPlay
| ClickRecord (built : bool)
| ClickCamera
| ClickScreen
| SelectDevice
| CameraAnswer (res : option MediaStream)
| ScreenAnswer (res : option MediaStream)
| MicAnswer (res : option MediaStream)
| ScreenEnded
| SlideSpeed (v : Q)
| SlideSilence (v : Q).

Definition step (e : Event) (s : State) : State :=
  match e with
  | Frame now => fst (animate now s)
  | Sample now data => analyzeVolume now data s
  | KeyDown k => handleKeyDown k s
  | ClickPlay => set_isPlaying (negb (isPlaying s)) s
  | ClickRecord built => toggleRecording built s
  | ClickCamera => modeEffect (handleToggleCamera s)
  | ClickScreen => modeEffect (handleToggleScreen s)
  | SelectDevice => modeEffect s
  | CameraAnswer res => cameraAnswer res s
  | ScreenAnswer res => screenAnswer res s
  | MicAnswer res => micAnswer res s
  | ScreenEnded => screenEnded s
  | SlideSpeed v => set_scrollSpeed v s
  | SlideSilence v => set_silenceThresholdSeconds v s
  end.

Definition run (es : list Event) (s : State) : State :=
  fold_left (fun acc e => step e acc) es s.

(** The first render at time [t0]: the [useState] and [useRef] initial
    values, with the scroll container [c] and the video element attached. *)
Definition initial (t0 : Z) (c : Container) : State :=
  mkState 2 2 false false 0 None false false false
          (Some c) false false t0 0 (Some None) None None [].

(** The component once its mount effects have run, in the order they are
    declared: the device listing asks for microphone and camera, the mode
    effect takes its last branch, the initial audio setup asks for the
    microphone again.  The answers arrive as events. *)
Definition mounted (t0 : Z) (c : Container) : State :=
  initAudioAnalysisOnly (modeEffect (emit [GetUserMedia true] (initial t0 c))).

Inductive reachable : State -> Prop :=
| reach_mounted (t0 : Z) (c : Container) : reachable (mounted t0 c)
| reach_step (e : Event) (s : State) : reachable s -> reachable (step e s).

(** *** Vocabulary of the statements *)

(** The [stop()] calls that release the capture handle held in [s]. *)
Definition released (s : State) : list Effect :=
  match mediaStreamRef s with
  | Some tracks => map TrackStop tracks
  | None => []
  end.

(** The call that detaches the preview, when the video element is mounted. *)
Definition detached (s : State) : list Effect :=
  match videoPreviewRef s with
  | Some _ => [PreviewSrc None]
  | None => []
  end.

Definition exclusive (s : State) : Prop :=
  isCameraOn s && isScreenShareOn s = false.

(** The mode flags, kept by everything but the toggles and the failure paths. *)
Definition mode (s : State) : bool * bool := (isCameraOn s, isScreenShareOn s).

(** The two playback flags. *)
Definition playback (s : State) : bool * bool := (isPlaying s, isAutoPaused s).

(** Frames at the times [nows] all find the container and [isPlaying]
    and none of them finds a reason to pause. *)
Definition scrolling (nows : list Z) (s : State) : Prop :=
  containerRef s <> None /\ isPlaying s = true /\
  forall now, In now nows -> shouldPauseForSilence now s = false.

(** *** Sample states *)

Definition page : Container := mkContainer 0 1000 500.

(** A mounted prompter whose microphone request was granted. *)
Definition listening : State :=
  run [MicAnswer (Some [mkTrack 1 AudioTrack])] (mounted 0 page).

(** A prompter showing a shared screen. *)
Definition sharing : State :=
  run [ClickScreen; ScreenAnswer (Some [mkTrack 7 VideoTrack])] (mounted 0 page).

(** A prompter without microphone grant, playing at speed 1, and the
    times of ten frames. *)
Definition playingAtOne : State :=
  run [SlideSpeed 1; ClickPlay] (mounted 0 page).

Definition tenFrames : list Z :=
  [16; 33; 50; 66; 83; 100; 116; 133; 150; 166]%Z.

(** A prompter playing over the camera while a take is being recorded. *)
Definition recording : State :=
  run [ClickCamera;
       CameraAnswer (Some [mkTrack 3 VideoTrack; mkTrack 4 AudioTrack]);
       ClickRecord true; ClickPlay] (mounted 0 page).

(** The camera is switched on and, before the platform has answered, the
    screen share is chosen instead; the camera stream arrives first, the
    screen stream after it. *)
Definition cameraStream : MediaStream := [mkTrack 3 VideoTrack; mkTrack 4 AudioTrack].

Definition screenStream : MediaStream := [mkTrack 7 VideoTrack].

Definition overtaken : State :=
  run [ClickCamera; ClickScreen;
       CameraAnswer (Some cameraStream); ScreenAnswer (Some screenStream)]
      (mounted 0 page).

End Prompter.

(* ================================================================== *)
(** ** String operations the components call *)
(* ================================================================== *)

Module Text.

(** The code units below 256 that [trim] strips: tab, line feed, vertical
    tab, form feed, carriage return, space and no-break space. *)
Definition isWhiteSpace (c : ascii) : bool :=
  let n := nat_of_ascii c in
  ((9 <=? n) && (n <=? 13) || (n =? 32) || (n =? 160))%nat.

Fixpoint trimStart (s : string) : string :=
  match s with
  | EmptyString => EmptyString
  | String c r => if isWhiteSpace c then trimStart r else s
  end.

Fixpoint trimEnd (s : string) : string :=
  match s with
  | EmptyString => EmptyString
  | String c r =>
      match trimEnd r with
      | EmptyString => if isWhiteSpace c then EmptyString else String c EmptyString
      | r' => String c r'
      end
  end.

(** [s.trim()] *)
Definition trim (s : string) : string := trimEnd (trimStart s).

(** [s.split('\n')]: never empty, one more entry than there are line
    feeds. *)
Fixpoint split (s : string) : list string :=
  match s with
  | EmptyString => [EmptyString]
  | String c r =>
      if Ascii.eqb c App.newline then EmptyString :: split r
      else match split r with
           | l :: ls => String c l :: ls
           | [] => [String c EmptyString]
           end
  end.

(** [lines.join('\n')] *)
Fixpoint join (l : list string) : string :=
  match l with
  | [] => EmptyString
  | [a] => a
  | a :: rest => a ++ String App.newline (join rest)
  end.

(** Every character is white space. *)
Fixpoint blank (s : string) : bool :=
  match s with
  | EmptyString => true
  | String c r => isWhiteSpace c && blank r
  end.

Fixpoint hasNewline (s : string) : bool :=
  match s with
  | EmptyString => false
  | String c r => Ascii.eqb c App.newline || hasNewline r
  end.

End Text.

(* ================================================================== *)
(** ** What App.tsx and Editor.tsx derive from the store *)
(* ================================================================== *)

Module Editor.

Import App.

(** [scripts.find(s => s.id === activeId)], in [App] and in [Editor]. *)
Definition activeScript (st : Store) : option SavedScript :=
  find (fun s => String.eqb (id s) (activeScriptId st)) (scripts st).

(** The [script] prop of [Prompter]:
    [activeScript?.content || "No text available."] *)
Definition prompterScript (st : Store) : string :=
  match activeScript st with
  | Some s => if truthy (content s) then content s else "No text available."
  | None => "No text available."
  end.

(** [disabled={scripts.length >= 10}] on the New Script buttons. *)
Definition createDisabled (st : Store) : bool :=
  (10 <=? List.length (scripts st))%nat.

(** [disabled={!activeScript?.content.trim()}] on Start Prompter. *)
Definition startDisabled (st : Store) : bool :=
  match activeScript st with
  | Some s => negb (truthy (Text.trim (content s)))
  | None => true
  end.

(** [value={activeScript?.title || ''}] of the title input. *)
Definition titleValue (st : Store) : string :=
  match activeScript st with
  | Some s => title s
  | None => ""
  end.

(** [value={activeScript?.content || ''}] of the text area. *)
Definition textValue (st : Store) : string :=
  match activeScript st with
  | Some s => content s
  | None => ""
  end.

(** [{script.title || "Untitled Script"}] in the sidebar. *)
Definition titleShown (s : SavedScript) : string :=
  if truthy (title s) then title s else "Untitled Script".

End Editor.

(* ================================================================== *)
(** ** Prompter.tsx: paragraphs, progress bar, devices, takes *)
(* ================================================================== *)

Module PrompterView.

Import Prompter.

Local Open Scope Q_scope.

(** The effect on [script]: the lines that are not blank, or a
    placeholder. *)
Definition paragraphs (script : string) : list string :=
  match filter (fun p => (0 <? String.length (Text.trim p))%nat) (Text.split script) with
  | [] => ["No text provided."%string]
  | paras => paras
  end.

(** The width, in percent, that [updateProgressBar] gives the bar.
    JavaScript rounds the quotient; the bounds and the order of the
    widths do not depend on the rounding. *)
Definition progressWidth (c : Container) : Q :=
  let maxScroll := (scrollHeight c - clientHeight c)%Z in
  let progress := if (0 <? maxScroll)%Z
                  then inject_Z (scrollTop c) / inject_Z maxScroll * 100
                  else 0 in
  Qmin 100 (Qmax 0 progress).

(** The width, in percent, of the level meter:
    [Math.min(currentVolume * 2, 100)]. *)
Definition meterWidth (s : State) : Q := Qmin (currentVolume s * 2) 100.

(** *** Events the controls can produce

    The speed slider has [min=0 max=15 step=0.5], the silence slider
    [min=1 max=10 step=0.5]; the analyser fills a [Uint8Array]. *)
Definition halves (q : Q) : Prop := exists k : Z, q == inject_Z k * (1#2).

Definition quarters (q : Q) : Prop := exists k : Z, q == inject_Z k * (1#4).

Definition uiEvent (e : Event) : Prop :=
  match e with
  | SlideSpeed v => 0 <= v /\ v <= 15 /\ halves v
  | SlideSilence v => 1 <= v /\ v <= 10 /\ halves v
  | Sample _ data => Forall (fun b => (0 <= b <= 255)%Z) data
  | _ => True
  end.

Inductive reachableUI : State -> Prop :=
| ui_mounted (t0 : Z) (c : Container) : reachableUI (mounted t0 c)
| ui_step (e : Event) (s : State) :
    reachableUI s -> uiEvent e -> reachableUI (step e s).

(** Speed and threshold inside their ranges, on the half-unit grid; less
    than one whole unit in the accumulator, on the quarter-unit grid. *)
Definition settled (s : State) : Prop :=
  (0 <= scrollSpeed s /\ scrollSpeed s <= 20 /\ halves (scrollSpeed s)) /\
  (1 <= silenceThresholdSeconds s /\ silenceThresholdSeconds s <= 10) /\
  (0 <= scrollAccumulator s /\ scrollAccumulator s < 1 /\
   quarters (scrollAccumulator s)).

(** The frame times at which a playing prompter in state [s] finds no
    reason to pause. *)
Definition scrolledFrames (nows : list Z) (s : State) : list Z :=
  filter (fun now => negb (shouldPauseForSilence now s)) nows.

(** A key event that passes none of the tests of [handleKeyDown]. *)
Definition unbound (e : KeyboardEvent) : Prop :=
  code e <> "Space"%string /\ code e <> "ArrowUp"%string /\
  code e <> "ArrowDown"%string /\
  key e <> "+"%string /\ code e <> "NumpadAdd"%string /\ key e <> "="%string /\
  key e <> "-"%string /\ code e <> "NumpadSubtract"%string /\ key e <> "_"%string.

(** The events of the space bar and of the + and - keys. *)
Definition spaceKey : KeyboardEvent := mkKey "Space" " ".
Definition plusKey : KeyboardEvent := mkKey "Equal" "+".
Definition minusKey : KeyboardEvent := mkKey "Minus" "-".

(** The call that closes the audio graph, when there is one. *)
Definition closed (s : State) : list Effect :=
  if audioContextRef s then [AudioContextClose] else [].

(** *** Device listing *)

Inductive DeviceKind : Type := videoinput | audioinput | audiooutput.

(** An entry of [enumerateDevices()]. *)
Record MediaDeviceInfo : Type := mkInfo {
  infoId : string;
  infoKind : DeviceKind;
  infoLabel : string
}.

(** [interface MediaDevice] *)
Record MediaDevice : Type := mkDevice { deviceId : string; label : string }.

Definition isVideoInput (d : MediaDeviceInfo) : bool :=
  match infoKind d with videoinput => true | _ => false end.

Definition isAudioInput (d : MediaDeviceInfo) : bool :=
  match infoKind d with audioinput => true | _ => false end.

(** [{ deviceId: d.deviceId, label: d.label || `${prefix}${d.deviceId.slice(0,5)}` }] *)
Definition named (prefix : string) (d : MediaDeviceInfo) : MediaDevice :=
  mkDevice (infoId d)
           (if App.truthy (infoLabel d) then infoLabel d
            else (prefix ++ String.substring 0 5 (infoId d))%string).

(** The four state cells [getDevices] writes. *)
Record Hardware : Type := mkHardware {
  videoDevices : list MediaDevice;
  audioDevices : list MediaDevice;
  selectedVideoId : string;
  selectedAudioId : string
}.

(** [useState] initial values. *)
Definition noHardware : Hardware := mkHardware [] [] "" "".

(** [getDevices]: [listing] is what [enumerateDevices()] returned, or
    [None] when the permission request or the enumeration was rejected. *)
Definition getDevices (listing : option (list MediaDeviceInfo)) (h : Hardware)
  : Hardware :=
  match listing with
  | None => h
  | Some devices =>
      let videos := map (named "Camera ") (filter isVideoInput devices) in
      let audios := map (named "Mic ") (filter isAudioInput devices) in
      mkHardware videos audios
        (match videos with v :: _ => deviceId v | [] => selectedVideoId h end)
        (match audios with a :: _ => deviceId a | [] => selectedAudioId h end)
  end.

(** *** Takes: recorded chunks and the download link *)

Record Blob : Type := mkBlob { size : Z }.

(** The prompter together with [recordedChunks] and [downloadUrl]; the
    link is represented by the chunks its blob was built from. *)
Record Take : Type := mkTake {
  prompter : State;
  recordedChunks : list Blob;
  downloadUrl : option (list Blob)
}.

(** [startRecording] with its writes to the two cells: both are cleared
    once a stream is known to exist, before the recorder is built. *)
Definition startTake (built : bool) (t : Take) : Take :=
  match mediaStreamRef (prompter t) with
  | None => t
  | Some _ => mkTake (startRecording built (prompter t)) [] None
  end.

(** [recorder.ondataavailable] *)
Definition ondataavailable (b : Blob) (t : Take) : Take :=
  if (0 <? size b)%Z
  then mkTake (prompter t) (recordedChunks t ++ [b]) (downloadUrl t)
  else t.

(** The effect on [isRecording, recordedChunks].  Running it again on
    unchanged cells builds a link over the same chunks. *)
Definition downloadEffect (t : Take) : Take :=
  if negb (isRecording (prompter t)) && (0 <? List.length (recordedChunks t))%nat
  then mkTake (prompter t) (recordedChunks t) (Some (recordedChunks t))
  else t.

Inductive TakeEvent : Type :=
| Ui (e : Event)
| DataAvailable (b : Blob).

Definition takeStep (ev : TakeEvent) (t : Take) : Take :=
  downloadEffect
    match ev with
    | Ui (ClickRecord built) =>
        if isRecording (prompter t)
        then mkTake (stopRecording (prompter t)) (recordedChunks t) (downloadUrl t)
        else startTake built t
    | Ui e => mkTake (step e (prompter t)) (recordedChunks t) (downloadUrl t)
    | DataAvailable b => ondataavailable b t
    end.

Inductive reachableTake : Take -> Prop :=
| take_mounted (t0 : Z) (c : Container) :
    reachableTake (mkTake (mounted t0 c) [] None)
| take_step (ev : TakeEvent) (t : Take) :
    reachableTake t -> reachableTake (takeStep ev t).

(** *** Vocabulary of the statements *)

(** The recording flag and the recorder ref. *)
Definition take (s : State) : bool * option MediaStream :=
  (isRecording s, mediaRecorderRef s).

(** A granted microphone comes with an audio graph. *)
Definition wired (s : State) : Prop :=
  micPermission s = Some true -> analyserRef s = true /\ audioContextRef s = true.

(** Speed, threshold and accumulator. *)
Definition knobs (s : State) : Q * Q * Q :=
  (scrollSpeed s, silenceThresholdSeconds s, scrollAccumulator s).

(** The link is there exactly when no take runs and chunks are kept, and
    is built from them. *)
Definition linked (t : Take) : Prop :=
  downloadUrl t =
    if isRecording (prompter t) || (List.length (recordedChunks t) =? 0)%nat
    then None else Some (recordedChunks t).

(** A sequence of events, oldest first. *)
Definition runTake (evs : list TakeEvent) (t : Take) : Take :=
  fold_left (fun acc ev => takeStep ev acc) evs t.

(** The blobs of positive size that the data events of [evs] carry. *)
Fixpoint delivered (evs : list TakeEvent) : list Blob :=
  match evs with
  | [] => []
  | DataAvailable b :: rest =>
      if (0 <? size b)%Z then b :: delivered rest else delivered rest
  | Ui _ :: rest => delivered rest
  end.

Definition noRecordClick (ev : TakeEvent) : Prop :=
  forall built, ev <> Ui (ClickRecord built).

(** *** Sample data *)

(** A prompter just mounted; a take being recorded over the camera; the
    same take stopped after one chunk of 5 bytes. *)
Definition fresh : Take := mkTake (mounted 0 page) [] None.

Definition filming : Take :=
  runTake [Ui ClickCamera; Ui (CameraAnswer (Some cameraStream));
           Ui (ClickRecord true)] fresh.

Definition filmed : Take :=
  runTake [DataAvailable (mkBlob 5); Ui (ClickRecord true)] filming.

Definition twoCameras : list MediaDeviceInfo :=
  [mkInfo "abcdefgh" videoinput ""; mkInfo "mic-1" audioinput "Desk mic";
   mkInfo "spk" audiooutput "Speakers"; mkInfo "cam-2" videoinput "Front"].

End PrompterView.

(* ================================================================== *)
(** ** Properties of the script store *)
(* ================================================================== *)

Section StoreFacts.

Import App.

Lemma ids_update c now st : ids (handleUpdateScript c now st) = ids st.
Proof.
  unfold ids, handleUpdateScript; simpl. rewrite map_map.
  apply map_ext. intros s. destruct (String.eqb _ _); reflexivity.
Qed.

Lemma ids_rename t now st : ids (handleRenameScript t now st) = ids st.
Proof.
  unfold ids, handleRenameScript; simpl. rewrite map_map.
  apply map_ext. intros s. destruct (String.eqb _ _); reflexivity.
Qed.

Lemma count_update c now st : count (handleUpdateScript c now st) = count st.
Proof. unfold count, handleUpdateScript; simpl. apply length_map. Qed.

Lemma count_rename t now st : count (handleRenameScript t now st) = count st.
Proof. unfold count, handleRenameScript; simpl. apply length_map. Qed.

Lemma ids_roundtrip l : map id (map migrate (persist l)) = map id l.
Proof. unfold persist. rewrite !map_map. reflexivity. Qed.

Lemma in_ids_without i j l :
  In j (map id (without i l)) <-> In j (map id l) /\ j <> i.
Proof.
  unfold without. rewrite !in_map_iff. split.
  - intros [s [E H]]. apply filter_In in H as [H N].
    apply negb_true_iff, String.eqb_neq in N. subst j. eauto.
  - intros [[s [E H]] N]. exists s. split; [assumption|].
    apply filter_In. split; [assumption|].
    apply negb_true_iff, String.eqb_neq. congruence.
Qed.

Lemma nodup_without i l : NoDup (map id l) -> NoDup (map id (without i l)).
Proof.
  induction l as [|s l IH]; simpl; intros H; [constructor|].
  inversion H as [|? ? Hs Hl]; subst.
  destruct (String.eqb (id s) i); simpl; auto.
  constructor; auto. intros C. apply in_ids_without in C. tauto.
Qed.

Lemma without_absent i l : ~ In i (map id l) -> without i l = l.
Proof.
  induction l as [|s l IH]; simpl; intros H; [reflexivity|].
  destruct (String.eqb_spec (id s) i) as [E|N]; simpl.
  - exfalso. apply H. left. assumption.
  - f_equal. apply IH. tauto.
Qed.

Lemma without_present i l :
  NoDup (map id l) -> In i (map id l) ->
  S (List.length (without i l)) = List.length l.
Proof.
  induction l as [|s l IH]; simpl; intros H I; [contradiction|].
  inversion H as [|? ? Hs Hl]; subst.
  destruct (String.eqb_spec (id s) i) as [E|N]; simpl.
  - subst i. rewrite without_absent by assumption. reflexivity.
  - f_equal. apply IH; [assumption|]. destruct I; [contradiction|assumption].
Qed.

Lemma without_length_ge i l :
  NoDup (map id l) -> (List.length l <= S (List.length (without i l)))%nat.
Proof.
  intros H. destruct (in_dec string_dec i (map id l)) as [I|I].
  - rewrite (without_present i l H I). apply le_n.
  - rewrite without_absent by assumption. apply le_S, le_n.
Qed.

Lemma without_length_le i l : (List.length (without i l) <= List.length l)%nat.
Proof. apply filter_length_le. Qed.

End StoreFacts.

Section StoreInvariant.

Import App.

Create HintDb store.

Lemma sized_first uuid now : sized (initStore None uuid now).
Proof.
  unfold sized, initStore, ids, count; simpl. repeat split.
  - constructor; [intros []|constructor].
  - apply le_n.
  - unfold MAX_SCRIPTS. repeat constructor.
Qed.

Lemma sized_update c now st : sized st -> sized (handleUpdateScript c now st).
Proof. unfold sized. rewrite ids_update, count_update. tauto. Qed.

Lemma sized_rename t now st : sized st -> sized (handleRenameScript t now st).
Proof. unfold sized. rewrite ids_rename, count_rename. tauto. Qed.

Lemma sized_create uuid now st :
  sized st -> ~ In uuid (ids st) -> sized (handleCreateScript uuid now st).
Proof.
  intros (N & L1 & L2) F. unfold handleCreateScript.
  destruct (Nat.leb_spec MAX_SCRIPTS (List.length (scripts st))) as [G|G].
  - repeat split; assumption.
  - unfold sized, ids, count in *; simpl. repeat split.
    + constructor; assumption.
    + apply le_n_S, Nat.le_0_l.
    + exact G.
Qed.

(** With distinct ids the delete handler never throws. *)
Lemma delete_done now1 now2 i st :
  sized st -> exists st', handleDeleteScript now1 now2 i st = Done st'.
Proof.
  intros (N & L1 & L2). unfold handleDeleteScript.
  destruct (Nat.leb_spec (List.length (scripts st)) 1) as [G|G]; [eauto|].
  destruct (String.eqb i (activeScriptId st)); [|eauto].
  fold (without i (scripts st)).
  pose proof (without_length_ge i (scripts st) N) as H.
  destruct (without i (scripts st)); [|eauto].
  simpl in H. lia.
Qed.

Lemma sized_delete now1 now2 i st :
  sized st -> sized (state_of (handleDeleteScript now1 now2 i st)).
Proof.
  intros W. pose proof W as (N & L1 & L2). unfold handleDeleteScript.
  destruct (Nat.leb_spec (List.length (scripts st)) 1) as [G|G]; simpl.
  - apply sized_rename, sized_update, W.
  - fold (without i (scripts st)).
    pose proof (without_length_ge i (scripts st) N) as H1.
    pose proof (without_length_le i (scripts st)) as H2.
    pose proof (nodup_without i (scripts st) N) as H3.
    unfold count in *.
    assert (X : sized (mkStore (without i (scripts st)) (activeScriptId st))).
    { unfold sized, ids, count; simpl. repeat split; try assumption; lia. }
    destruct (String.eqb i (activeScriptId st)); [|exact X].
    destruct (without i (scripts st)) as [|s r]; exact X.
Qed.

Lemma sized_select i st : sized st -> sized (handleSelectScript i st).
Proof. intros H. exact H. Qed.

Lemma sized_reload uuid now st : sized st -> sized (reload uuid now st).
Proof.
  unfold sized, reload, initStore, ids, count; simpl.
  rewrite ids_roundtrip. unfold persist. rewrite !length_map. tauto.
Qed.

#[local] Hint Resolve sized_first sized_update sized_rename sized_create
  sized_delete sized_select sized_reload : store.

Lemma reachable_sized okTitle okSelect st :
  reachableWith okTitle okSelect st -> sized st.
Proof. induction 1; auto with store. Qed.

Lemma selected_delete now1 now2 i st :
  sized st -> selected st ->
  selected (state_of (handleDeleteScript now1 now2 i st)).
Proof.
  intros (N & L1 & L2) A. unfold handleDeleteScript.
  destruct (Nat.leb_spec (List.length (scripts st)) 1) as [G|G]; simpl.
  - unfold selected. rewrite ids_rename, ids_update. exact A.
  - fold (without i (scripts st)).
    destruct (String.eqb_spec i (activeScriptId st)) as [E|E].
    + pose proof (without_length_ge i (scripts st) N) as H1.
      unfold count in *.
      destruct (without i (scripts st)) as [|s r]; simpl in *; [lia|].
      left; reflexivity.
    + unfold selected, ids; simpl. apply in_ids_without.
      split; [exact A|]. intros C. apply E. symmetry. exact C.
Qed.

Lemma selected_reload uuid now st :
  sized st -> selected (reload uuid now st).
Proof.
  intros (_ & L1 & _).
  unfold selected, reload, initStore, ids, count in *; simpl.
  rewrite ids_roundtrip.
  destruct (scripts st) as [|s r]; simpl in *; [lia|]. left; reflexivity.
Qed.

Lemma reachable_wellFormed okTitle st :
  reachableWith okTitle listed st -> wellFormed st.
Proof.
  induction 1 as [uuid now|c now st _ [Z A]|t now st _ [Z A] _
                  |uuid now st _ [Z A] F|now1 now2 i st _ [Z A]
                  |i st _ [Z A] L|uuid now st _ [Z A]].
  - split; [apply sized_first|left; reflexivity].
  - split; [apply sized_update, Z|].
    unfold selected. rewrite ids_update. exact A.
  - split; [apply sized_rename, Z|].
    unfold selected. rewrite ids_rename. exact A.
  - split; [apply sized_create; assumption|].
    unfold handleCreateScript. destruct (_ <=? _)%nat; [exact A|].
    left; reflexivity.
  - split; [apply sized_delete, Z|apply selected_delete; assumption].
  - split; [exact Z|exact L].
  - split; [apply sized_reload, Z|apply selected_reload, Z].
Qed.

End StoreInvariant.

Section StoreClaims.

Import App.

Lemma fullStore_reachable okTitle okSelect :
  reachableWith okTitle okSelect fullStore.
Proof.
  unfold fullStore; simpl fold_left.
  repeat (apply reach_create;
          [|cbn; intros H; repeat (destruct H as [H|H]; [discriminate H|]); exact H]).
  apply reach_first.
Qed.

(** C7.  Whatever sequence of create, update, rename, delete and select
    calls (and reloads) led to it from the first launch, the store holds
    between 1 and 10 scripts, and a create call on a store that already
    holds 10 changes neither the collection nor the selection. *)
Theorem script_count_bounds (st : Store) :
  reachableByCalls st ->
  (1 <= count st <= 10)%nat /\
  (count st = 10%nat -> forall uuid now, handleCreateScript uuid now st = st).
Proof.
  intros R. apply reachable_sized in R as (_ & L). split; [exact L|].
  intros E uuid now. unfold handleCreateScript. fold (count st).
  rewrite E. reflexivity.
Qed.

Lemma script_count_bounds_witness :
  (1 <= count fullStore <= 10)%nat /\
  handleCreateScript "k" 107 fullStore = fullStore.
Proof.
  destruct (script_count_bounds fullStore (fullStore_reachable _ _)) as [B C].
  split; [exact B|]. apply C. reflexivity.
Defined.

(** C6.  On a reachable store, deleting when one script remains leaves a
    one-script collection with empty content and the title "Untitled
    Script"; deleting a listed id when more remain removes exactly that
    script, and the selection moves to the first remaining script when the
    deleted one was selected and stays put otherwise. *)
Theorem delete_semantics (now1 now2 : Z) (i : string) (st : Store) :
  reachable st ->
  (count st = 1%nat ->
     exists s,
       handleDeleteScript now1 now2 i st = Done (mkStore [s] (activeScriptId st)) /\
       content s = "" /\ title s = "Untitled Script") /\
  ((1 < count st)%nat -> In i (ids st) ->
     exists st',
       handleDeleteScript now1 now2 i st = Done st' /\
       scripts st' = without i (scripts st) /\
       ~ In i (ids st') /\
       S (count st') = count st /\
       if String.eqb i (activeScriptId st)
       then exists s r, scripts st' = s :: r /\ activeScriptId st' = id s
       else activeScriptId st' = activeScriptId st).
Proof.
  intros R. apply reachable_wellFormed in R as ((N & L) & A).
  unfold selected in A. split.
  - intros E. unfold handleDeleteScript. fold (count st). rewrite E. simpl.
    unfold count, ids in *.
    destruct (scripts st) as [|s [|? ?]] eqn:Sc; try discriminate E.
    simpl in A. destruct A as [A|[]].
    unfold handleRenameScript, handleUpdateScript. simpl. rewrite Sc. simpl.
    rewrite A, (String.eqb_refl (activeScriptId st)). simpl.
    rewrite A, (String.eqb_refl (activeScriptId st)).
    eexists. split; [reflexivity|]. split; reflexivity.
  - intros G I. unfold handleDeleteScript. fold (count st).
    destruct (Nat.leb_spec (count st) 1) as [G'|_]; [lia|].
    fold (without i (scripts st)).
    pose proof (without_present i (scripts st) N I) as P.
    assert (X : ~ In i (map id (without i (scripts st)))).
    { intros C. apply in_ids_without in C. tauto. }
    destruct (String.eqb i (activeScriptId st)).
    + destruct (without i (scripts st)) as [|s r] eqn:W.
      * simpl in P. unfold count in G. lia.
      * eexists. split; [reflexivity|]. simpl. unfold ids, count. simpl. eauto 10.
    + eexists. split; [reflexivity|]. simpl. unfold ids, count. simpl. auto.
Qed.

Lemma delete_semantics_witness :
  (exists s,
     handleDeleteScript 1 2 "a" (initStore None "a" 0)
       = Done (mkStore [s] "a") /\ content s = "" /\ title s = "Untitled Script") /\
  (exists st',
     handleDeleteScript 1 2 "j" fullStore = Done st' /\
     count st' = 9%nat /\ activeScriptId st' = "i").
Proof.
  split.
  - apply (delete_semantics 1 2 "a" (initStore None "a" 0)
             (reach_first _ _ "a" 0)). reflexivity.
  - destruct (delete_semantics 1 2 "j" fullStore (fullStore_reachable _ _)) as [_ H].
    destruct H as (st' & E & Sc & _ & C & A).
    + cbv. lia.
    + cbn. tauto.
    + exists st'. split; [exact E|]. split.
      * change (count fullStore) with 10%nat in C. congruence.
      * change (String.eqb "j" (activeScriptId fullStore)) with true in A.
        destruct A as (s & r & Q & A). rewrite A.
        rewrite Sc in Q. injection Q as Q _. rewrite <- Q. reflexivity.
Defined.

(** C10.  Update and rename leave the selection and the number of
    scripts alone; position by position, a script whose id differs from
    the active id is kept as it is, and a script with the active id only
    has its content (respectively its title) replaced and its
    [lastModified] set to the current time. *)
Theorem update_rename_frame (c t : string) (now : Z) (st : Store) :
  let u := handleUpdateScript c now st in
  let r := handleRenameScript t now st in
  activeScriptId u = activeScriptId st /\
  activeScriptId r = activeScriptId st /\
  count u = count st /\ count r = count st /\
  forall n s, nth_error (scripts st) n = Some s ->
    (id s <> activeScriptId st ->
       nth_error (scripts u) n = Some s /\ nth_error (scripts r) n = Some s) /\
    (id s = activeScriptId st ->
       nth_error (scripts u) n = Some (mkScript (id s) (title s) c now) /\
       nth_error (scripts r) n = Some (mkScript (id s) t (content s) now)).
Proof.
  cbv zeta. split; [reflexivity|]. split; [reflexivity|].
  split; [apply count_update|]. split; [apply count_rename|].
  intros n s H. unfold handleUpdateScript, handleRenameScript; simpl.
  rewrite !nth_error_map, H; simpl.
  split; intros E.
  - apply String.eqb_neq in E. rewrite E. split; reflexivity.
  - apply String.eqb_eq in E. rewrite E. split; reflexivity.
Qed.

End StoreClaims.

Section TitleFacts.

Import App.

(** The migration on small inputs. *)
Example firstLine_two_lines :
  firstLine ("Hello" ++ String newline "World") = "Hello".
Proof. reflexivity. Qed.

Example titleFromContent_long_line :
  titleFromContent "The quick brown fox jumps over the lazy dog"
  = "The quick brown fox jumps over".
Proof. reflexivity. Qed.

Example migrate_old_record :
  migrate (mkStored "a" None ("Intro" ++ String newline "Body") 7)
  = mkScript "a" "Intro" ("Intro" ++ String newline "Body") 7 /\
  migrate (mkStored "b" None "" 8) = mkScript "b" "Untitled Script" "" 8 /\
  migrate (mkStored "c" (Some "Kept") "Body" 9) = mkScript "c" "Kept" "Body" 9.
Proof. repeat split. Qed.

Lemma substring_length_le (n : nat) (s : string) :
  (String.length (String.substring 0 n s) <= n)%nat.
Proof.
  revert s. induction n as [|n IH]; intros [|c s]; simpl; try lia.
  specialize (IH s). lia.
Qed.

Lemma titleFromContent_length (c : string) :
  (String.length (titleFromContent c) <= 30)%nat.
Proof.
  unfold titleFromContent. destruct (truthy c).
  - apply substring_length_le.
  - simpl. lia.
Qed.

(** What a reload does to one script: [title] is rewritten exactly when
    it is the empty string. *)
Lemma migrate_stored (s : SavedScript) :
  migrate (stored s) =
  mkScript (id s)
           (if String.eqb (title s) "" then titleFromContent (content s) else title s)
           (content s) (lastModified s).
Proof.
  unfold migrate, stored, truthy; simpl.
  destruct (String.eqb (title s) ""); reflexivity.
Qed.

Lemma migrate_stored_titled (s : SavedScript) :
  title s <> "" -> migrate (stored s) = s.
Proof.
  intros H. rewrite migrate_stored. apply String.eqb_neq in H. rewrite H.
  destruct s; reflexivity.
Qed.

(** Persisting and reloading is the identity on collections whose titles
    are all non-empty. *)
Lemma reload_titled (l : list SavedScript) (uuid : string) (now : Z) :
  Forall (fun s => title s <> "") l -> loadScripts (Some (persist l)) uuid now = l.
Proof.
  unfold loadScripts, persist. rewrite map_map.
  induction 1 as [|s l H _ IH]; simpl; [reflexivity|].
  rewrite migrate_stored_titled by assumption. f_equal. exact IH.
Qed.

Lemma titlesBounded_map (f : SavedScript -> SavedScript) (st : Store) (a : string) :
  titlesBounded st ->
  (forall s, (String.length (title s) <= 50)%nat ->
             (String.length (title (f s)) <= 50)%nat) ->
  titlesBounded (mkStore (map f (scripts st)) a).
Proof.
  unfold titlesBounded; simpl. intros B H. apply Forall_map.
  eapply Forall_impl; [|exact B]. exact H.
Qed.

Lemma titlesBounded_update c now st :
  titlesBounded st -> titlesBounded (handleUpdateScript c now st).
Proof.
  intros B. apply titlesBounded_map; [exact B|].
  intros s H. destruct (String.eqb _ _); exact H.
Qed.

Lemma titlesBounded_rename t now st :
  fitsTitleInput t -> titlesBounded st -> titlesBounded (handleRenameScript t now st).
Proof.
  intros F B. apply titlesBounded_map; [exact B|].
  intros s H. destruct (String.eqb _ _); [exact F|exact H].
Qed.

Lemma titlesBounded_delete now1 now2 i st :
  titlesBounded st -> titlesBounded (state_of (handleDeleteScript now1 now2 i st)).
Proof.
  intros B. unfold handleDeleteScript.
  destruct (_ <=? 1)%nat; simpl.
  - apply titlesBounded_rename; [unfold fitsTitleInput; simpl; lia|].
    apply titlesBounded_update, B.
  - assert (F : Forall (fun s => (String.length (title s) <= 50)%nat)
                       (without i (scripts st))).
    { apply Forall_forall. intros s H. apply filter_In in H as [H _].
      revert s H. apply Forall_forall. exact B. }
    unfold without in F.
    destruct (String.eqb i (activeScriptId st)); [|exact F].
    destruct (filter _ (scripts st)); exact F.
Qed.

Lemma titlesBounded_reload uuid now st :
  titlesBounded st -> titlesBounded (reload uuid now st).
Proof.
  unfold titlesBounded, reload, initStore, loadScripts, persist; simpl.
  intros B. rewrite map_map. apply Forall_map.
  eapply Forall_impl; [|exact B]. intros s H. rewrite migrate_stored. simpl.
  destruct (String.eqb (title s) ""); [|exact H].
  pose proof (titleFromContent_length (content s)). lia.
Qed.

Lemma editor_titlesBounded st : reachableFromEditor st -> titlesBounded st.
Proof.
  induction 1 as [uuid now| | | uuid now st _ IH _ | | |].
  - constructor; [simpl; lia|constructor].
  - now apply titlesBounded_update.
  - now apply titlesBounded_rename.
  - unfold handleCreateScript. destruct (_ <=? _)%nat; [exact IH|].
    constructor; [simpl; lia|exact IH].
  - now apply titlesBounded_delete.
  - assumption.
  - now apply titlesBounded_reload.
Qed.

(** C4, counterexample.  The rename handler called with 51 characters
    stores all 51: the title is not cut to 50 and the store then carries a
    title longer than 50. *)
Lemma rename_keeps_long_title :
  let t := "123456789012345678901234567890123456789012345678901" in
  let st := handleRenameScript t 1 (initStore None "a" 0) in
  String.length t = 51%nat /\
  scripts st = [mkScript "a" t "" 1] /\
  map title (scripts st) <> [String.substring 0 50 t] /\
  ~ titlesBounded st.
Proof.
  cbv zeta. repeat split.
  - discriminate.
  - intros B. inversion B as [|? ? H _]. simpl in H. lia.
Qed.

(** C4, amended.  The rename handler stores its argument unchanged as the
    title of the active script.  The 50-character limit is the
    [maxLength] of the editor's title input: when every rename argument
    fits it, no script in the store carries a title longer than 50, and a
    rename with such an argument keeps it that way. *)
Theorem rename_title_bound (t : string) (now : Z) (st : Store) :
  reachableFromEditor st ->
  titlesBounded st /\
  (exists s, In s (scripts (handleRenameScript t now st)) /\
             id s = activeScriptId st /\ title s = t) /\
  (forall s, In s (scripts (handleRenameScript t now st)) ->
             id s = activeScriptId st -> title s = t) /\
  (fitsTitleInput t -> titlesBounded (handleRenameScript t now st)).
Proof.
  intros R. pose proof (editor_titlesBounded st R) as B.
  apply reachable_wellFormed in R as (_ & A). unfold selected in A.
  split; [exact B|]. split; [|split].
  - unfold ids in A. apply in_map_iff in A as (s & E & I).
    exists (withTitle t now s). repeat split; [|exact E].
    unfold handleRenameScript; simpl. apply in_map_iff. exists s.
    apply String.eqb_eq in E. rewrite E. auto.
  - unfold handleRenameScript; simpl. intros s I E.
    apply in_map_iff in I as (s0 & F & _).
    destruct (String.eqb_spec (id s0) (activeScriptId st)) as [G|G];
      subst s; [reflexivity|contradiction].
  - intros F. apply titlesBounded_rename; assumption.
Qed.

Lemma rename_title_bound_witness :
  let st := initStore None "a" 0 in
  titlesBounded st /\
  (exists s, In s (scripts (handleRenameScript "Intro" 1 st)) /\
             id s = "a" /\ title s = "Intro") /\
  titlesBounded (handleRenameScript "Intro" 1 st).
Proof.
  destruct (rename_title_bound "Intro" 1 (initStore None "a" 0)
              (reach_first _ _ "a" 0)) as (B & E & _ & F).
  cbv zeta. split; [exact B|]. split; [exact E|].
  apply F. unfold fitsTitleInput. simpl. lia.
Defined.

(** C5.  A script whose title is the empty string and whose content is
    "Hello" comes back from a persist and reload with the title "Hello":
    the [title] property is present in the stored record, yet the
    migration replaces it. *)
Theorem reload_rewrites_empty_title :
  let l := [mkScript "a" "" "Hello" 0] in
  persist l = [mkStored "a" (Some "") "Hello" 0] /\
  loadScripts (Some (persist l)) "u" 1 = [mkScript "a" "Hello" "Hello" 0] /\
  loadScripts (Some (persist l)) "u" 1 <> l.
Proof. cbv zeta. repeat split. discriminate. Qed.

End TitleFacts.

(* ================================================================== *)
(** ** Properties of the prompter *)
(* ================================================================== *)

Section PrompterFacts.

Import Prompter.

Local Open Scope Q_scope.
Local Open Scope list_scope.

Lemma Qgtb_lt (a b : Q) : Qgtb a b = true <-> b < a.
Proof.
  unfold Qgtb. rewrite negb_true_iff, <- not_true_iff_false, Qle_bool_iff.
  split; [apply Qnot_le_lt|apply Qlt_not_le].
Qed.


(** The handlers on small inputs. *)
Example speed_keys_clamp :
  scrollSpeed (handleKeyDown (mkKey "Equal" "+") (set_scrollSpeed 20 (initial 0 page)))
    == 20 /\
  scrollSpeed (handleKeyDown (mkKey "Minus" "-") (set_scrollSpeed 0 (initial 0 page)))
    == 0 /\
  scrollSpeed (handleKeyDown (mkKey "NumpadAdd" "+") (initial 0 page)) == 5 # 2.
Proof. repeat split. Qed.

Example arrow_keys_nudge :
  containerRef (handleKeyDown (mkKey "ArrowDown" "ArrowDown") (initial 0 page))
    = Some (mkContainer 100 1000 500) /\
  containerRef (handleKeyDown (mkKey "ArrowUp" "ArrowUp") (initial 0 page))
    = Some (mkContainer 0 1000 500).
Proof. split; reflexivity. Qed.

Example mean_of_ten_is_not_loud :
  lastNoiseTime (analyzeVolume 5 [20; 0]%Z listening) = 0%Z /\
  lastNoiseTime (analyzeVolume 5 [21; 0]%Z listening) = 5%Z.
Proof. split; reflexivity. Qed.

Lemma reachable_run (es : list Event) (s : State) :
  reachable s -> reachable (run es s).
Proof.
  revert s. induction es as [|e es IH]; intros s R; simpl; [exact R|].
  apply IH. constructor. exact R.
Qed.

(** Split on every test a handler makes. *)
Ltac split_tests :=
  repeat match goal with
         | |- context [if ?b then _ else _] => destruct b eqn:?
         | |- context [match ?x with _ => _ end] => destruct x eqn:?
         end.

(** *** The mode flags *)

Lemma mode_stopCurrentStream s : mode (stopCurrentStream s) = mode s.
Proof.
  unfold stopCurrentStream. destruct (mediaStreamRef s); simpl;
    destruct (videoPreviewRef s); reflexivity.
Qed.

Lemma mode_initAudioAnalysisOnly s : mode (initAudioAnalysisOnly s) = mode s.
Proof. unfold initAudioAnalysisOnly. destruct (audioContextRef s); reflexivity. Qed.

Lemma mode_initAudioAnalysisFromStream stream s :
  mode (initAudioAnalysisFromStream stream s) = mode s.
Proof.
  unfold initAudioAnalysisFromStream.
  destruct (getAudioTracks stream); [|reflexivity].
  destruct (isScreenShareOn s) eqn:E; [|reflexivity].
  apply mode_initAudioAnalysisOnly.
Qed.

Lemma mode_attachPreview stream s : mode (attachPreview stream s) = mode s.
Proof. unfold attachPreview. destruct (videoPreviewRef s); reflexivity. Qed.

Lemma mode_modeEffect s : mode (modeEffect s) = mode s.
Proof.
  unfold modeEffect, startCamera, startScreenShare.
  destruct (isCameraOn s) eqn:C; [|destruct (isScreenShareOn s) eqn:W].
  - change (mode (stopCurrentStream s) = mode s). apply mode_stopCurrentStream.
  - change (mode (stopCurrentStream s) = mode s). apply mode_stopCurrentStream.
  - rewrite mode_initAudioAnalysisOnly. apply mode_stopCurrentStream.
Qed.

Lemma mode_rerunIf b s : mode (rerunIf b s) = mode s.
Proof. destruct b; [apply mode_modeEffect|reflexivity]. Qed.

Lemma mode_animate now s : mode (fst (animate now s)) = mode s.
Proof. unfold animate. split_tests; reflexivity. Qed.

Lemma mode_analyzeVolume now data s : mode (analyzeVolume now data s) = mode s.
Proof. unfold analyzeVolume. split_tests; reflexivity. Qed.

Lemma mode_handleKeyDown e s : mode (handleKeyDown e s) = mode s.
Proof. unfold handleKeyDown, nudge. split_tests; reflexivity. Qed.

Lemma mode_toggleRecording built s : mode (toggleRecording built s) = mode s.
Proof.
  unfold toggleRecording, startRecording, stopRecording. split_tests; reflexivity.
Qed.

Lemma exclusive_mode s s' : mode s' = mode s -> exclusive s -> exclusive s'.
Proof.
  unfold mode, exclusive. intros E X. injection E as -> ->. exact X.
Qed.

Lemma exclusive_off_camera s : exclusive (set_isCameraOn false s).
Proof. reflexivity. Qed.

Lemma exclusive_off_screen s : exclusive (set_isScreenShareOn false s).
Proof. unfold exclusive. simpl. apply andb_false_r. Qed.

Lemma exclusive_toggleCamera s : exclusive (handleToggleCamera s).
Proof.
  unfold exclusive, handleToggleCamera. destruct (isCameraOn s); reflexivity.
Qed.

Lemma exclusive_toggleScreen s : exclusive (handleToggleScreen s).
Proof.
  unfold exclusive, handleToggleScreen. destruct (isScreenShareOn s) eqn:E; simpl.
  - apply andb_false_r.
  - reflexivity.
Qed.

Lemma exclusive_step e s : exclusive s -> exclusive (step e s).
Proof.
  intros X. destruct e as [now|now data|k| |built| | | |res|res|res| |v|v]; simpl.
  - exact (exclusive_mode _ _ (mode_animate now s) X).
  - exact (exclusive_mode _ _ (mode_analyzeVolume now data s) X).
  - exact (exclusive_mode _ _ (mode_handleKeyDown k s) X).
  - exact X.
  - exact (exclusive_mode _ _ (mode_toggleRecording built s) X).
  - exact (exclusive_mode _ _ (mode_modeEffect _) (exclusive_toggleCamera s)).
  - exact (exclusive_mode _ _ (mode_modeEffect _) (exclusive_toggleScreen s)).
  - exact (exclusive_mode _ _ (mode_modeEffect _) X).
  - destruct res as [stream|]; simpl.
    + refine (exclusive_mode _ _ _ X).
      rewrite mode_initAudioAnalysisFromStream, mode_attachPreview. reflexivity.
    + exact (exclusive_mode _ _ (mode_rerunIf _ _) (exclusive_off_camera s)).
  - destruct res as [stream|]; simpl.
    + refine (exclusive_mode _ _ _ X).
      rewrite mode_initAudioAnalysisOnly, mode_attachPreview. reflexivity.
    + exact (exclusive_mode _ _ (mode_rerunIf _ _) (exclusive_off_screen s)).
  - destruct res as [stream|]; simpl; [|exact X].
    exact (exclusive_mode _ _ (mode_initAudioAnalysisFromStream stream s) X).
  - unfold screenEnded. refine (exclusive_mode _ _ _ (exclusive_off_screen s)).
    rewrite mode_rerunIf, mode_initAudioAnalysisOnly. apply mode_stopCurrentStream.
  - exact X.
  - exact X.
Qed.

Lemma reachable_exclusive s : reachable s -> exclusive s.
Proof.
  induction 1 as [t0 c|e s _ IH]; [reflexivity|]. apply exclusive_step, IH.
Qed.

(** *** Teardown before acquisition *)

Lemma effects_stopCurrentStream s :
  effects (stopCurrentStream s) = effects s ++ released s ++ detached s.
Proof.
  unfold stopCurrentStream, released, detached.
  destruct (mediaStreamRef s) as [tracks|]; simpl;
    destruct (videoPreviewRef s); simpl;
    rewrite ?app_nil_r, <- ?app_assoc; reflexivity.
Qed.

Lemma stream_stopCurrentStream s : mediaStreamRef (stopCurrentStream s) = None.
Proof.
  unfold stopCurrentStream.
  destruct (mediaStreamRef s) as [tracks|] eqn:E; simpl;
    destruct (videoPreviewRef s); simpl; auto.
Qed.

Lemma preview_stopCurrentStream s :
  videoPreviewRef s <> None -> videoPreviewRef (stopCurrentStream s) = Some None.
Proof.
  unfold stopCurrentStream.
  destruct (mediaStreamRef s) as [tracks|]; simpl;
    destruct (videoPreviewRef s); simpl; congruence.
Qed.

Lemma enter_camera s :
  isCameraOn s = false ->
  let s' := step ClickCamera s in
  mode s' = (true, false) /\
  effects s' = effects s ++ released s ++ detached s ++ [GetUserMedia true] /\
  mediaStreamRef s' = None.
Proof.
  intros C. simpl. unfold handleToggleCamera. rewrite C. simpl.
  unfold modeEffect. simpl. unfold startCamera. simpl.
  rewrite effects_stopCurrentStream, stream_stopCurrentStream.
  pose proof (mode_stopCurrentStream
                (set_isCameraOn true (set_isScreenShareOn false s))) as M.
  unfold mode in *. simpl in *. rewrite M.
  rewrite <- !app_assoc. auto.
Qed.

Lemma enter_screen s :
  isScreenShareOn s = false ->
  let s' := step ClickScreen s in
  mode s' = (false, true) /\
  effects s' = effects s ++ released s ++ detached s ++ [GetDisplayMedia] /\
  mediaStreamRef s' = None.
Proof.
  intros C. simpl. unfold handleToggleScreen. rewrite C. simpl.
  unfold modeEffect. simpl. unfold startScreenShare. simpl.
  rewrite effects_stopCurrentStream, stream_stopCurrentStream.
  pose proof (mode_stopCurrentStream
                (set_isScreenShareOn true (set_isCameraOn false s))) as M.
  unfold mode in *. simpl in *. rewrite M.
  rewrite <- !app_assoc. auto.
Qed.

(** X24.  In every reachable state the camera and the screen share are
    not both on.  Switching the camera on turns the screen share off (and
    the other way round), and the effect that follows stops every track
    of the stream that [mediaStreamRef] holds at that moment, detaches the
    preview and only then asks the platform for the new stream, leaving
    [mediaStreamRef] empty until an answer arrives.  A stream that a
    request still pending delivers later is not covered. *)
Theorem background_sources_exclusive (s : State) :
  reachable s ->
  isCameraOn s && isScreenShareOn s = false /\
  (isCameraOn s = false ->
     let s' := step ClickCamera s in
     mode s' = (true, false) /\
     effects s' = effects s ++ released s ++ detached s ++ [GetUserMedia true] /\
     mediaStreamRef s' = None) /\
  (isScreenShareOn s = false ->
     let s' := step ClickScreen s in
     mode s' = (false, true) /\
     effects s' = effects s ++ released s ++ detached s ++ [GetDisplayMedia] /\
     mediaStreamRef s' = None).
Proof.
  intros R. split; [exact (reachable_exclusive s R)|].
  split; [apply enter_camera|apply enter_screen].
Qed.

Lemma background_sources_exclusive_witness :
  isScreenShareOn sharing = true /\
  mode (step ClickCamera sharing) = (true, false) /\
  effects (step ClickCamera sharing) =
    effects sharing ++
    [TrackStop (mkTrack 7 VideoTrack); PreviewSrc None; GetUserMedia true].
Proof.
  destruct (background_sources_exclusive sharing) as (_ & C & _).
  - apply reachable_run. constructor.
  - destruct C as (M & E & _); [reflexivity|].
    split; [reflexivity|]. split; [exact M|exact E].
Defined.

(** *** A stream delivered after its source was left *)

(** Both answer paths store the stream they receive whatever
    [mediaStreamRef] holds and whatever the mode flags say by then, and
    neither of them stops a track. *)
Lemma answers_overwrite stream s :
  mediaStreamRef (cameraAnswer (Some stream) s) = Some stream /\
  mediaStreamRef (screenAnswer (Some stream) s) = Some stream /\
  forall t,
    (In (TrackStop t) (effects (cameraAnswer (Some stream) s)) ->
     In (TrackStop t) (effects s)) /\
    (In (TrackStop t) (effects (screenAnswer (Some stream) s)) ->
     In (TrackStop t) (effects s)).
Proof.
  unfold cameraAnswer, screenAnswer, initAudioAnalysisFromStream,
    initAudioAnalysisOnly, attachPreview.
  destruct s; simpl.
  repeat match goal with
         | |- context [match ?x with _ => _ end] => destruct x; simpl
         end;
    (split; [reflexivity|]); (split; [reflexivity|]);
    intros tr; rewrite ?in_app_iff; simpl; intuition discriminate.
Qed.

(** C8.  The camera is switched on and, before the platform has answered
    the camera request, the screen share is chosen instead; the camera
    stream then arrives, and the screen stream after it.  The state
    reached has the screen share on and the camera off, and holds the
    screen stream: the camera stream was stored and shown when it
    arrived, with nothing to stop at either click, and was then replaced
    by the screen stream without any of its tracks being stopped.  No
    [stop()] occurs in the whole log, and leaving the screen share
    afterwards stops the screen track alone. *)
Theorem late_camera_stream_is_never_stopped :
  reachable overtaken /\
  mode overtaken = (false, true) /\
  mediaStreamRef
    (run [ClickCamera; ClickScreen; CameraAnswer (Some cameraStream)]
         (mounted 0 page)) = Some cameraStream /\
  mediaStreamRef overtaken = Some screenStream /\
  effects overtaken =
    effects (mounted 0 page) ++
    [PreviewSrc None; GetUserMedia true;
     PreviewSrc None; GetDisplayMedia;
     PreviewSrc (Some cameraStream);
     PreviewSrc (Some screenStream); AudioContextClose; GetUserMedia false] /\
  (forall t, ~ In (TrackStop t) (effects overtaken)) /\
  (forall t, In (TrackStop t) (effects (step ClickScreen overtaken)) ->
             t = mkTrack 7 VideoTrack).
Proof.
  split; [apply reachable_run; constructor|].
  do 4 (split; [reflexivity|]).
  split.
  - intros t H. vm_compute in H.
    repeat (destruct H as [H|H]; [discriminate H|]). exact H.
  - intros t H. vm_compute in H.
    repeat (destruct H as [H|H]; [first [discriminate H | now inversion H]|]).
    destruct H.
Qed.

(** *** Recording and playback *)

(** C9.  Stopping a recording while the recorder ref holds a recorder
    sets [isRecording] and [isPlaying] to false, whatever [isPlaying] was;
    the record button does so whenever a recording is in progress. *)
Theorem stopRecording_pauses (s : State) :
  mediaRecorderRef s <> None ->
  isRecording (stopRecording s) = false /\
  isPlaying (stopRecording s) = false /\
  (isRecording s = true ->
     forall built, step (ClickRecord built) s = stopRecording s).
Proof.
  intros H. unfold stopRecording.
  destruct (mediaRecorderRef s) as [r|] eqn:E; [|contradiction].
  repeat split. intros I built. simpl. unfold toggleRecording, stopRecording.
  rewrite I, E. reflexivity.
Qed.

Lemma stopRecording_pauses_witness :
  playback recording = (true, false) /\ isRecording recording = true /\
  isRecording (step (ClickRecord true) recording) = false /\
  isPlaying (step (ClickRecord true) recording) = false.
Proof.
  destruct (stopRecording_pauses recording) as (R & P & T).
  - discriminate.
  - rewrite (T eq_refl true). repeat split; assumption.
Defined.

(** *** The playback flags *)















(** *** The auto-pause decision *)

Lemma shouldPauseForSilence_iff now s :
  shouldPauseForSilence now s = true <->
  micPermission s = Some true /\
  silenceThresholdSeconds s * 1000 < inject_Z (now - lastNoiseTime s).
Proof.
  unfold shouldPauseForSilence, silenceLimitMs.
  destruct (micPermission s) as [[|]|].
  - rewrite Qgtb_lt. tauto.
  - split; [discriminate|intros [H _]; discriminate H].
  - split; [discriminate|intros [H _]; discriminate H].
Qed.


(** A frame that finds the container and [isPlaying], and no reason to
    pause, adds half the speed to the accumulator and moves its integer
    part, when there is one, to [scrollTop]. *)
Lemma animate_scrolls now s :
  containerRef s <> None -> isPlaying s = true ->
  shouldPauseForSilence now s = false ->
  let acc := scrollAccumulator s + scrollSpeed s * (1#2) in
  snd (animate now s) = (if Qle_bool 1 acc then Qfloor acc else 0%Z) /\
  scrollAccumulator (fst (animate now s)) == acc - inject_Z (snd (animate now s)).
Proof.
  intros C P N. unfold animate. destruct (containerRef s); [|contradiction].
  rewrite P, N. simpl.
  destruct (Qle_bool 1 _) eqn:L; simpl; split; try reflexivity.
  unfold Qminus. rewrite Qplus_0_r. reflexivity.
Qed.



(** *** Sub-pixel accumulation *)

Lemma Qfloor_unique (z : Z) (x : Q) :
  inject_Z z <= x -> x < inject_Z (z + 1) -> Qfloor x = z.
Proof.
  intros L U.
  pose proof (Qfloor_le x) as L'. pose proof (Qlt_floor x) as U'.
  assert (z < Qfloor x + 1)%Z by (rewrite Zlt_Qlt; eapply Qle_lt_trans; eauto).
  assert (Qfloor x < z + 1)%Z by (rewrite Zlt_Qlt; eapply Qle_lt_trans; eauto).
  lia.
Qed.

(** The integer part taken out of a non-negative accumulator is
    non-negative and leaves a remainder in [0, 1). *)
Lemma carry_bounds (acc : Q) :
  0 <= acc ->
  let d := if Qle_bool 1 acc then Qfloor acc else 0%Z in
  (0 <= d)%Z /\ 0 <= acc - inject_Z d /\ acc - inject_Z d < 1.
Proof.
  intros H. simpl. destruct (Qle_bool 1 acc) eqn:L.
  - pose proof (Qfloor_le acc) as F. pose proof (Qlt_floor acc) as G.
    rewrite inject_Z_plus in G. change (inject_Z 1) with 1 in G.
    split; [|split; lra].
    change 0%Z with (Qfloor 0). apply Qfloor_resp_le. exact H.
  - assert (~ 1 <= acc) by (rewrite <- Qle_bool_iff, L; discriminate).
    change (inject_Z 0) with 0. split; [lia|]. split; lra.
Qed.

Lemma frames_cons now rest s :
  frames (now :: rest) s =
  (fst (frames rest (fst (animate now s))),
   snd (animate now s) :: snd (frames rest (fst (animate now s)))).
Proof.
  simpl. destruct (animate now s) as [s1 d]. simpl.
  destruct (frames rest s1); reflexivity.
Qed.

(** What a frame leaves alone. *)
Lemma animate_keeps now s :
  scrollSpeed (fst (animate now s)) = scrollSpeed s /\
  isPlaying (fst (animate now s)) = isPlaying s /\
  (containerRef s <> None -> containerRef (fst (animate now s)) <> None) /\
  (forall t, shouldPauseForSilence t (fst (animate now s))
             = shouldPauseForSilence t s).
Proof.
  unfold animate.
  destruct (containerRef s) eqn:C; [|simpl; repeat split; auto].
  destruct (isPlaying s) eqn:P; [|simpl; repeat split; auto; congruence].
  destruct (shouldPauseForSilence now s);
    [|destruct (Qle_bool _ _)]; simpl; repeat split; auto; congruence.
Qed.

Lemma scrolling_animate now rest s :
  scrolling (now :: rest) s -> scrolling rest (fst (animate now s)).
Proof.
  intros (C & P & N). destruct (animate_keeps now s) as (_ & P' & C' & N').
  repeat split; [auto|congruence|].
  intros t I. rewrite N'. apply N. right. exact I.
Qed.

Lemma in_firstn (t : Z) (k : nat) : forall l, In t (firstn k l) -> In t l.
Proof.
  induction k as [|k IH]; intros [|a l]; simpl; try tauto.
  intros [E|I]; [left; exact E|right; apply IH, I].
Qed.

Lemma scrolling_firstn k nows s : scrolling nows s -> scrolling (firstn k nows) s.
Proof.
  intros (C & P & N). repeat split; auto.
  intros t I. apply N. apply in_firstn with (1 := I).
Qed.

Lemma frames_length nows : forall s,
  List.length (snd (frames nows s)) = List.length nows.
Proof.
  induction nows as [|now rest IH]; intros s; [reflexivity|].
  rewrite frames_cons. simpl. f_equal. apply IH.
Qed.

Lemma frames_firstn k : forall nows s,
  snd (frames (firstn k nows) s) = firstn k (snd (frames nows s)).
Proof.
  induction k as [|k IH]; intros [|now rest] s; try reflexivity.
  change (firstn (S k) (now :: rest)) with (now :: firstn k rest).
  rewrite !frames_cons. simpl. f_equal. apply IH.
Qed.

Lemma total_firstn_succ (ds : list Z) : forall k,
  (k < List.length ds)%nat ->
  total (firstn (S k) ds) = (total (firstn k ds) + nth k ds 0)%Z.
Proof.
  induction ds as [|d ds IH]; intros k H; simpl in H; [lia|].
  destruct k as [|k]; [simpl; lia|].
  change (total (firstn (S (S k)) (d :: ds)))
    with (d + total (firstn (S k) ds))%Z.
  rewrite IH by lia. simpl. unfold total. lia.
Qed.

(** The amounts scrolled and the remainder add up to what was fed in. *)
Lemma frames_sum nows : forall s,
  scrolling nows s -> 0 <= scrollSpeed s ->
  0 <= scrollAccumulator s -> scrollAccumulator s < 1 ->
  inject_Z (total (snd (frames nows s))) + scrollAccumulator (fst (frames nows s))
    == scrollAccumulator s
       + inject_Z (Z.of_nat (List.length nows)) * (scrollSpeed s * (1#2)) /\
  0 <= scrollAccumulator (fst (frames nows s)) /\
  scrollAccumulator (fst (frames nows s)) < 1.
Proof.
  induction nows as [|now rest IH]; intros s Sc V L U.
  - simpl. change (inject_Z 0) with 0. repeat split; try assumption. ring.
  - rewrite frames_cons. cbn [fst snd].
    pose proof Sc as (C & P & N).
    destruct (animate_scrolls now s C P (N now (or_introl eq_refl))) as [D A].
    assert (0 <= scrollAccumulator s + scrollSpeed s * (1#2)) as H by nra.
    destruct (carry_bounds _ H) as (_ & B1 & B2). rewrite <- D in B1, B2.
    destruct (animate_keeps now s) as (K & _).
    destruct (IH (fst (animate now s))) as (E & R1 & R2).
    + apply scrolling_animate with (1 := Sc).
    + rewrite K. exact V.
    + rewrite A. exact B1.
    + rewrite A. exact B2.
    + split; [|split; assumption].
      change (total (snd (animate now s) :: snd (frames rest (fst (animate now s)))))
        with (snd (animate now s) + total (snd (frames rest (fst (animate now s)))))%Z.
      rewrite inject_Z_plus.
      change (List.length (now :: rest)) with (S (List.length rest)).
      rewrite Nat2Z.inj_succ. unfold Z.succ. rewrite inject_Z_plus.
      change (inject_Z 1) with 1.
      rewrite K, A in E. lra.
Qed.

Lemma animate_bounds now rest s :
  scrolling (now :: rest) s -> 0 <= scrollSpeed s ->
  0 <= scrollAccumulator s -> scrollAccumulator s < 1 ->
  (0 <= snd (animate now s))%Z /\
  0 <= scrollAccumulator (fst (animate now s)) /\
  scrollAccumulator (fst (animate now s)) < 1 /\
  scrollSpeed (fst (animate now s)) = scrollSpeed s /\
  scrolling rest (fst (animate now s)).
Proof.
  intros Sc V L U. pose proof Sc as (C & P & N).
  destruct (animate_scrolls now s C P (N now (or_introl eq_refl))) as [D A].
  assert (0 <= scrollAccumulator s + scrollSpeed s * (1#2)) as H by nra.
  destruct (carry_bounds _ H) as (B0 & B1 & B2). rewrite <- D in B0, B1, B2.
  destruct (animate_keeps now s) as (K & _).
  rewrite A. repeat split; try assumption.
  - apply scrolling_animate with (1 := Sc).
  - apply scrolling_animate with (1 := Sc).
  - apply scrolling_animate with (1 := Sc).
Qed.

(** What a scrolling frame does to the container: the amount is added to
    [scrollTop], up to the end of the scrollable extent. *)
Lemma animate_container now s c :
  containerRef s = Some c -> isPlaying s = true ->
  shouldPauseForSilence now s = false ->
  (0 <= snd (animate now s))%Z ->
  (0 <= scrollTop c <= Z.max 0 (maxScroll c))%Z ->
  exists c1,
    containerRef (fst (animate now s)) = Some c1 /\
    maxScroll c1 = maxScroll c /\
    scrollTop c1 = Z.min (scrollTop c + snd (animate now s)) (Z.max 0 (maxScroll c)).
Proof.
  unfold animate. intros C P N. rewrite C, P, N.
  destruct (Qle_bool 1 _); simpl; intros D B.
  - eexists. split; [reflexivity|]. unfold setScrollTop, maxScroll in *.
    simpl. split; [reflexivity|lia].
  - exists c. split; [exact C|]. split; [reflexivity|lia].
Qed.

Lemma frames_scrollTop nows : forall s c,
  scrolling nows s -> 0 <= scrollSpeed s ->
  0 <= scrollAccumulator s -> scrollAccumulator s < 1 ->
  containerRef s = Some c ->
  (0 <= scrollTop c <= Z.max 0 (maxScroll c))%Z ->
  (0 <= total (snd (frames nows s)))%Z /\
  exists c',
    containerRef (fst (frames nows s)) = Some c' /\
    maxScroll c' = maxScroll c /\
    scrollTop c' = Z.min (scrollTop c + total (snd (frames nows s)))
                         (Z.max 0 (maxScroll c)).
Proof.
  induction nows as [|now rest IH]; intros s c Sc V L U C B.
  - simpl. split; [lia|]. exists c. split; [exact C|]. split; [reflexivity|lia].
  - rewrite frames_cons. cbn [fst snd].
    destruct (animate_bounds now rest s Sc V L U) as (D & L1 & U1 & K & Sc1).
    pose proof Sc as (_ & P & N).
    destruct (animate_container now s c C P (N now (or_introl eq_refl)) D B)
      as (c1 & C1 & M1 & T1).
    rewrite <- K in V.
    destruct (IH _ c1 Sc1 V L1 U1 C1) as (D' & c' & C' & M' & T'); [rewrite M1; lia|].
    change (total (snd (animate now s) :: snd (frames rest (fst (animate now s)))))
      with (snd (animate now s) + total (snd (frames rest (fst (animate now s)))))%Z.
    split; [lia|]. exists c'. split; [exact C'|]. split; [congruence|].
    rewrite T', T1, M1. lia.
Qed.

Lemma Qfloor_half (z : Z) (q : Q) :
  q == 1 -> Qfloor (inject_Z z * q * (1#2)) = (z / 2)%Z.
Proof.
  intros E. rewrite E.
  assert (H : inject_Z z * 1 * (1#2) == z # 2).
  { unfold Qeq; simpl. lia. }
  rewrite H. reflexivity.
Qed.

Lemma half_step (k : nat) :
  (Z.of_nat (S k) / 2 - Z.of_nat k / 2)%Z = if Nat.odd k then 1%Z else 0%Z.
Proof.
  rewrite Nat2Z.inj_succ. rewrite <- Nat.negb_even.
  destruct (Nat.even k) eqn:E; simpl.
  - apply Nat.even_spec in E as [m ->]. Z.div_mod_to_equations. lia.
  - assert (O : Nat.odd k = true) by (rewrite <- Nat.negb_even, E; reflexivity).
    apply Nat.odd_spec in O as [m ->]. Z.div_mod_to_equations. lia.
Qed.

(** C2.  Over frames that all scroll, at a constant non-negative speed
    and from an empty accumulator: every frame adds half the speed to the
    accumulator and hands its integer part, when it has reached 1, to
    [scrollTop], keeping the remainder; after n frames the amounts handed
    over sum to [floor (n * speed * 0.5)], which is within less than one
    unit below the fractional total, and the accumulator holds the
    difference.  [scrollTop] has advanced by that sum, up to the end of the
    scrollable extent.  At speed 1 the frames scroll 0, 1, 0, 1, ... *)
Theorem scroll_accumulation (nows : list Z) (s : State) :
  scrolling nows s -> 0 <= scrollSpeed s -> scrollAccumulator s == 0 ->
  let fed := inject_Z (Z.of_nat (List.length nows)) * scrollSpeed s * (1#2) in
  let applied := total (snd (frames nows s)) in
  applied = Qfloor fed /\
  0 <= fed - inject_Z applied /\ fed - inject_Z applied < 1 /\
  scrollAccumulator (fst (frames nows s)) == fed - inject_Z applied /\
  (forall now s1,
     scrolling [now] s1 ->
     let acc := scrollAccumulator s1 + scrollSpeed s1 * (1#2) in
     snd (animate now s1) = (if Qle_bool 1 acc then Qfloor acc else 0%Z) /\
     scrollAccumulator (fst (animate now s1))
       == acc - inject_Z (snd (animate now s1))) /\
  (forall c,
     containerRef s = Some c ->
     (0 <= scrollTop c <= Z.max 0 (maxScroll c))%Z ->
     exists c',
       containerRef (fst (frames nows s)) = Some c' /\
       scrollTop c' = Z.min (scrollTop c + applied) (Z.max 0 (maxScroll c))) /\
  (scrollSpeed s == 1 ->
     forall k, (k < List.length nows)%nat ->
       nth k (snd (frames nows s)) 0%Z = if Nat.odd k then 1%Z else 0%Z).
Proof.
  intros Sc V Z0. cbv zeta.
  assert (L : 0 <= scrollAccumulator s) by lra.
  assert (U : scrollAccumulator s < 1) by lra.
  destruct (frames_sum nows s Sc V L U) as (E & R1 & R2).
  assert (F : forall k,
             total (snd (frames (firstn k nows) s))
             = Qfloor (inject_Z (Z.of_nat (List.length (firstn k nows)))
                       * scrollSpeed s * (1#2))).
  { intros k.
    destruct (frames_sum (firstn k nows) s (scrolling_firstn k nows s Sc) V L U)
      as (Ek & Rk1 & Rk2).
    symmetry. apply Qfloor_unique; [|rewrite inject_Z_plus; change (inject_Z 1) with 1];
      lra. }
  split; [|split; [|split; [|split; [|split; [|split]]]]]; try lra.
  - specialize (F (List.length nows)). rewrite firstn_all in F. exact F.
  - intros now s1 (C1 & P1 & N1). apply animate_scrolls; auto. apply N1. left. reflexivity.
  - intros c C B.
    destruct (frames_scrollTop nows s c Sc V L U C B) as (_ & c' & C' & _ & T').
    eauto.
  - intros One k H.
    pose proof (F (S k)) as F1. pose proof (F k) as F0.
    rewrite frames_firstn in F0, F1.
    rewrite total_firstn_succ in F1 by (rewrite frames_length; exact H).
    rewrite !length_firstn in F0, F1.
    rewrite Nat.min_l in F0 by lia. rewrite Nat.min_l in F1 by lia.
    rewrite (Qfloor_half _ _ One) in F0. rewrite (Qfloor_half _ _ One) in F1.
    rewrite <- half_step. lia.
Qed.

Lemma scroll_accumulation_witness :
  total (snd (frames tenFrames playingAtOne)) = 5%Z /\
  snd (frames tenFrames playingAtOne) = [0; 1; 0; 1; 0; 1; 0; 1; 0; 1]%Z /\
  scrollAccumulator (fst (frames tenFrames playingAtOne)) == 0.
Proof.
  destruct (scroll_accumulation tenFrames playingAtOne) as (A & _ & _ & R & _).
  - split; [discriminate|]. split; [reflexivity|]. intros now _. reflexivity.
  - discriminate.
  - reflexivity.
  - split; [rewrite A; reflexivity|]. split; [reflexivity|].
    rewrite R, A. reflexivity.
Defined.

End PrompterFacts.

(* ================================================================== *)
(** ** Further properties of the script store *)
(* ================================================================== *)

Section StoreMore.

Import App.

Local Open Scope list_scope.

Lemma migrate_stored_twice (s : SavedScript) :
  migrate (stored (migrate (stored s))) = migrate (stored s).
Proof.
  rewrite !migrate_stored. simpl.
  destruct (String.eqb (title s) "") eqn:E; simpl.
  - destruct (String.eqb (titleFromContent (content s)) "") eqn:F; reflexivity.
  - rewrite E. reflexivity.
Qed.

(** X1.  Persisting a collection and loading it back keeps the number and
    the order of the scripts and, script by script, the id, the content
    and [lastModified]; a non-empty title is kept, an empty one is
    replaced by the title derived from the content. *)
Theorem persist_reload_fields (l : list SavedScript) (uuid : string) (now : Z) :
  let l' := loadScripts (Some (persist l)) uuid now in
  List.length l' = List.length l /\
  forall n s, nth_error l n = Some s ->
    exists s', nth_error l' n = Some s' /\
      id s' = id s /\ content s' = content s /\
      lastModified s' = lastModified s /\
      (title s <> "" -> title s' = title s) /\
      (title s = "" -> title s' = titleFromContent (content s)).
Proof.
  cbv zeta. unfold loadScripts, persist. rewrite map_map. split.
  - apply length_map.
  - intros n s H. exists (migrate (stored s)). rewrite nth_error_map, H.
    split; [reflexivity|]. rewrite migrate_stored. simpl.
    repeat split.
    + intros T. apply String.eqb_neq in T. rewrite T. reflexivity.
    + intros T. apply String.eqb_eq in T. rewrite T. reflexivity.
Qed.

(** X2.  A reload keeps the ids, selects the first script whatever was
    selected before, and a second reload changes nothing more. *)
Theorem reload_idempotent (u1 u2 : string) (n1 n2 : Z) (st : Store) :
  ids (reload u1 n1 st) = ids st /\
  activeScriptId (reload u1 n1 st) = hd "" (ids st) /\
  reload u2 n2 (reload u1 n1 st) = reload u1 n1 st.
Proof.
  unfold reload, initStore, loadScripts, ids; simpl. split; [|split].
  - apply ids_roundtrip.
  - unfold persist. destruct (scripts st); reflexivity.
  - assert (E : map migrate (persist (map migrate (persist (scripts st))))
                = map migrate (persist (scripts st))).
    { unfold persist. rewrite !map_map. apply map_ext.
      intros s. apply migrate_stored_twice. }
    rewrite E. reflexivity.
Qed.

Lemma firstLine_no_newline (c : string) : Text.hasNewline (firstLine c) = false.
Proof.
  induction c as [|a c IH]; [reflexivity|]. simpl.
  destruct (Ascii.eqb a newline) eqn:E; [reflexivity|]. simpl. rewrite E. exact IH.
Qed.

Lemma substring_no_newline (n : nat) : forall s,
  Text.hasNewline s = false -> Text.hasNewline (String.substring 0 n s) = false.
Proof.
  induction n as [|n IH]; intros [|a s]; simpl; try reflexivity.
  intros H. apply orb_false_iff in H as [H1 H2]. rewrite H1. simpl. apply IH, H2.
Qed.

Lemma prefix_firstLine (n : nat) : forall c,
  String.prefix (String.substring 0 n (firstLine c)) c = true.
Proof.
  induction n as [|n IH]; intros [|a c]; simpl; try reflexivity.
  - destruct (Ascii.eqb a newline); reflexivity.
  - destruct (Ascii.eqb a newline); simpl; [reflexivity|].
    destruct (ascii_dec a a) as [_|N]; [apply IH|contradiction].
Qed.

(** X3.  The title the migration derives from the content has at most 30
    characters, holds no line feed and, for non-empty content, is a
    prefix of it.  It is the empty string exactly when the content starts
    with a line feed: such a record is loaded without a title. *)
Theorem backfilled_title (c : string) :
  (String.length (titleFromContent c) <= 30)%nat /\
  Text.hasNewline (titleFromContent c) = false /\
  (c <> "" -> String.prefix (titleFromContent c) c = true) /\
  (titleFromContent c = "" <-> exists r, c = String newline r) /\
  (forall i n, title (migrate (mkStored i None c n)) = titleFromContent c).
Proof.
  split; [apply titleFromContent_length|].
  split; [|split; [|split; [|reflexivity]]].
  - unfold titleFromContent. destruct (truthy c); [|reflexivity].
    apply substring_no_newline, firstLine_no_newline.
  - intros N. unfold titleFromContent.
    destruct c as [|a c]; [contradiction|]. apply prefix_firstLine.
  - unfold titleFromContent. destruct c as [|a c]; simpl.
    + split; [discriminate|intros [r H]; discriminate H].
    + destruct (Ascii.eqb_spec a newline) as [->|N]; simpl.
      * split; [eauto|reflexivity].
      * split; [discriminate|]. intros [r H]. injection H as H _. contradiction.
Qed.

Lemma map_if_twice (f g : SavedScript -> SavedScript) (a : string)
      (l : list SavedScript) :
  (forall s, id (f s) = id s) ->
  map (fun s => if String.eqb (id s) a then g s else s)
      (map (fun s => if String.eqb (id s) a then f s else s) l)
  = map (fun s => if String.eqb (id s) a then g (f s) else s) l.
Proof.
  intros F. rewrite map_map. apply map_ext. intros s.
  destruct (String.eqb (id s) a) eqn:E; [|rewrite E; reflexivity].
  rewrite F, E. reflexivity.
Qed.

(** X4.  A later update overwrites an earlier one, a later rename an
    earlier one, and an update and a rename made at the same instant
    commute. *)
Theorem update_rename_compose (c1 c2 t1 t2 : string) (n1 n2 : Z) (st : Store) :
  handleUpdateScript c2 n2 (handleUpdateScript c1 n1 st)
    = handleUpdateScript c2 n2 st /\
  handleRenameScript t2 n2 (handleRenameScript t1 n1 st)
    = handleRenameScript t2 n2 st /\
  handleRenameScript t1 n1 (handleUpdateScript c1 n1 st)
    = handleUpdateScript c1 n1 (handleRenameScript t1 n1 st).
Proof.
  unfold handleUpdateScript, handleRenameScript; simpl.
  rewrite !map_if_twice by reflexivity. repeat split.
Qed.

Lemma map_if_absent (f : SavedScript -> SavedScript) (a : string)
      (l : list SavedScript) :
  ~ In a (map id l) ->
  map (fun s => if String.eqb (id s) a then f s else s) l = l.
Proof.
  induction l as [|s l IH]; simpl; intros H; [reflexivity|].
  destruct (String.eqb_spec (id s) a) as [E|_]; [tauto|].
  f_equal. apply IH. tauto.
Qed.

(** X5.  On a store with room, a create call with an unused id puts a
    blank script named "New Script" in front of the others and selects
    it; the editor then shows it with Start disabled, and an update that
    follows writes the new script only. *)
Theorem create_then_type (uuid c : string) (n1 n2 : Z) (st : Store) :
  (count st < 10)%nat -> ~ In uuid (ids st) ->
  let st1 := handleCreateScript uuid n1 st in
  st1 = mkStore (mkScript uuid "New Script" "" n1 :: scripts st) uuid /\
  Editor.activeScript st1 = Some (mkScript uuid "New Script" "" n1) /\
  Editor.startDisabled st1 = true /\
  handleUpdateScript c n2 st1
    = mkStore (mkScript uuid "New Script" c n2 :: scripts st) uuid.
Proof.
  intros L F. cbv zeta. unfold handleCreateScript. fold (count st).
  destruct (Nat.leb_spec MAX_SCRIPTS (count st)) as [G|_];
    [unfold MAX_SCRIPTS in G; lia|].
  split; [reflexivity|].
  unfold Editor.startDisabled, Editor.activeScript, handleUpdateScript; simpl.
  rewrite String.eqb_refl. repeat split.
  rewrite (map_if_absent _ uuid (scripts st) F). reflexivity.
Qed.

Lemma create_then_type_witness :
  handleUpdateScript "Good evening" 2 (handleCreateScript "b" 1 (initStore None "a" 0))
  = mkStore [mkScript "b" "New Script" "Good evening" 2;
             mkScript "a" "Welcome to Legg.io" "" 0] "b".
Proof.
  apply (create_then_type "b" "Good evening" 1 2 (initStore None "a" 0)).
  - cbv. lia.
  - cbn. intros [H|[]]. discriminate H.
Defined.

Lemma find_map_if (f : SavedScript -> SavedScript) (a : string)
      (l : list SavedScript) :
  (forall s, id (f s) = id s) ->
  find (fun s => String.eqb (id s) a)
       (map (fun s => if String.eqb (id s) a then f s else s) l)
  = option_map f (find (fun s => String.eqb (id s) a) l).
Proof.
  intros F. induction l as [|s l IH]; [reflexivity|]. simpl.
  destruct (String.eqb (id s) a) eqn:E.
  - rewrite F, E. reflexivity.
  - rewrite E. exact IH.
Qed.

Lemma find_selected (st : Store) :
  selected st ->
  exists s, Editor.activeScript st = Some s /\ id s = activeScriptId st.
Proof.
  unfold selected, ids, Editor.activeScript. intros H.
  destruct (find _ (scripts st)) as [s|] eqn:E.
  - exists s. split; [reflexivity|]. apply find_some in E as [_ E].
    apply String.eqb_eq, E.
  - exfalso. apply in_map_iff in H as (s & I & H).
    apply (find_none _ _ E) in H. rewrite I, String.eqb_refl in H. discriminate H.
Qed.

(** X6.  On a reachable store the editor reads back what it writes: after
    an update the text area holds the new content, after a rename the
    title input holds the new title, and either leaves the other field of
    the active script as it was. *)
Theorem editor_reads_its_writes (c t : string) (now : Z) (st : Store) :
  reachable st ->
  Editor.textValue (handleUpdateScript c now st) = c /\
  Editor.titleValue (handleUpdateScript c now st) = Editor.titleValue st /\
  Editor.titleValue (handleRenameScript t now st) = t /\
  Editor.textValue (handleRenameScript t now st) = Editor.textValue st.
Proof.
  intros R. apply reachable_wellFormed in R as (_ & A).
  destruct (find_selected st A) as (s & E & _).
  unfold Editor.textValue, Editor.titleValue.
  unfold Editor.activeScript in *. unfold handleUpdateScript, handleRenameScript.
  simpl. rewrite !find_map_if by reflexivity. rewrite E. simpl. auto.
Qed.

Lemma editor_reads_its_writes_witness :
  Editor.textValue (handleUpdateScript "Good evening" 3 fullStore) = "Good evening" /\
  Editor.titleValue (handleRenameScript "Opening" 3 fullStore) = "Opening".
Proof.
  destruct (editor_reads_its_writes "Good evening" "Opening" 3 fullStore
              (fullStore_reachable _ _)) as (A & _ & B & _).
  split; assumption.
Defined.

(** X7.  The New Script buttons are disabled exactly when the create
    handler would do nothing, that is from ten scripts on. *)
Theorem create_button_agrees (st : Store) :
  (Editor.createDisabled st = true <-> (10 <= count st)%nat) /\
  (Editor.createDisabled st = true <->
   forall uuid now, handleCreateScript uuid now st = st).
Proof.
  unfold Editor.createDisabled, handleCreateScript, MAX_SCRIPTS. fold (count st).
  destruct (Nat.leb_spec 10 (count st)) as [G|G]; split; split; auto;
    try discriminate; try lia.
  intros H. specialize (H "" 0%Z).
  apply (f_equal count) in H. unfold count in *. simpl in H. lia.
Qed.

(** X8.  On a reachable store with more than one script, deleting an id
    that no script carries changes neither the collection nor the
    selection. *)
Theorem delete_unknown_id (now1 now2 : Z) (i : string) (st : Store) :
  reachable st -> (1 < count st)%nat -> ~ In i (ids st) ->
  handleDeleteScript now1 now2 i st = Done st.
Proof.
  intros R G N. apply reachable_wellFormed in R as (_ & A). unfold selected in A.
  unfold handleDeleteScript. fold (count st).
  destruct (Nat.leb_spec (count st) 1) as [G'|_]; [lia|].
  fold (without i (scripts st)). rewrite (without_absent i (scripts st) N).
  destruct (String.eqb_spec i (activeScriptId st)) as [E|_].
  - subst i. contradiction.
  - destruct st; reflexivity.
Qed.

Lemma delete_unknown_id_witness :
  handleDeleteScript 1 2 "zz" fullStore = Done fullStore.
Proof.
  apply (delete_unknown_id 1 2 "zz" fullStore (fullStore_reachable _ _)).
  - cbv. lia.
  - cbn. intros H. repeat (destruct H as [H|H]; [discriminate H|]). exact H.
Defined.

End StoreMore.

(* ================================================================== *)
(** ** Paragraphs and the Start button *)
(* ================================================================== *)

Section Paragraphs.

Import App Text.

Local Open Scope list_scope.

(** The string operations on small inputs. *)
Example trim_both_ends :
  trim ("  a b " ++ String newline "") = "a b" /\ trim "   " = "".
Proof. split; reflexivity. Qed.

Example split_three_lines :
  split ("a" ++ String newline (String newline "b")) = ["a"; ""; "b"] /\
  split "" = [""] /\ split ("a" ++ String newline "") = ["a"; ""].
Proof. repeat split. Qed.

Lemma trimEnd_empty (s : string) : trimEnd s = "" <-> blank s = true.
Proof.
  induction s as [|c r IH]; simpl; [tauto|].
  destruct (trimEnd r) as [|a r'].
  - destruct (isWhiteSpace c); simpl.
    + tauto.
    + split; discriminate.
  - rewrite andb_true_iff. split; [discriminate|].
    intros [_ B]. apply IH in B. discriminate B.
Qed.

Lemma blank_trimStart (s : string) : blank (trimStart s) = blank s.
Proof.
  induction s as [|c r IH]; simpl; [reflexivity|].
  destruct (isWhiteSpace c) eqn:W; simpl; [exact IH|]. rewrite W. reflexivity.
Qed.

Lemma trim_empty (s : string) : trim s = "" <-> blank s = true.
Proof. unfold trim. rewrite trimEnd_empty, blank_trimStart. tauto. Qed.

(** The test of the paragraph filter, and of the Start button. *)
Lemma trim_length_pos (s : string) :
  (0 <? String.length (trim s))%nat = negb (blank s).
Proof.
  destruct (blank s) eqn:B.
  - apply trim_empty in B. rewrite B. reflexivity.
  - destruct (trim s) eqn:T; [|reflexivity].
    apply trim_empty in T. congruence.
Qed.

Lemma truthy_trim (s : string) : truthy (trim s) = negb (blank s).
Proof.
  unfold truthy. destruct (String.eqb_spec (trim s) "") as [E|E].
  - apply trim_empty in E. rewrite E. reflexivity.
  - destruct (blank s) eqn:B; [|reflexivity].
    apply trim_empty in B. contradiction.
Qed.

Lemma split_nonempty (s : string) : split s <> [].
Proof.
  destruct s as [|c r]; simpl; [discriminate|].
  destruct (Ascii.eqb c newline); [discriminate|].
  destruct (split r); discriminate.
Qed.

(** Nothing is lost in splitting: joining the lines gives the text back. *)
Lemma join_split (s : string) : join (split s) = s.
Proof.
  induction s as [|c r IH]; [reflexivity|]. simpl.
  destruct (Ascii.eqb_spec c newline) as [->|N].
  - pose proof (split_nonempty r) as H. simpl.
    destruct (split r) as [|l ls]; [contradiction|]. rewrite IH. reflexivity.
  - pose proof (split_nonempty r) as H.
    destruct (split r) as [|l ls]; [contradiction|].
    simpl in *. destruct ls; rewrite <- IH; reflexivity.
Qed.

Lemma split_no_newline (s : string) :
  Forall (fun l => hasNewline l = false) (split s).
Proof.
  induction s as [|c r IH]; simpl; [repeat constructor|].
  destruct (Ascii.eqb c newline) eqn:E; [constructor; [reflexivity|exact IH]|].
  destruct (split r) as [|l ls]; [repeat constructor; simpl; rewrite E; reflexivity|].
  inversion IH as [|? ? H1 H2]; subst. constructor; [|exact H2].
  simpl. rewrite E. exact H1.
Qed.

(** The first line is what the title migration reads. *)
Lemma hd_split (s : string) : hd "" (split s) = firstLine s.
Proof.
  induction s as [|c r IH]; [reflexivity|]. simpl.
  destruct (Ascii.eqb c newline); [reflexivity|].
  pose proof (split_nonempty r) as H.
  destruct (split r) as [|l ls]; [contradiction|]. simpl in *. congruence.
Qed.

Lemma blank_split (s : string) : forallb blank (split s) = blank s.
Proof.
  induction s as [|c r IH]; [reflexivity|]. simpl.
  destruct (Ascii.eqb_spec c newline) as [->|N].
  - simpl. exact IH.
  - pose proof (split_nonempty r) as H.
    destruct (split r) as [|l ls]; [contradiction|].
    simpl in *. rewrite <- IH. rewrite andb_assoc. reflexivity.
Qed.

Lemma filter_nonblank (l : list string) :
  filter (fun p => (0 <? String.length (trim p))%nat) l
  = filter (fun p => negb (blank p)) l.
Proof. apply filter_ext. intros p. apply trim_length_pos. Qed.

Lemma filter_nonblank_nil (l : list string) :
  filter (fun p => negb (blank p)) l = [] <-> forallb blank l = true.
Proof.
  induction l as [|p l IH]; simpl; [tauto|].
  destruct (blank p); simpl; [exact IH|]. split; discriminate.
Qed.

(** A script with a character that is not white space gives its
    non-blank lines, and there is one. *)
Lemma paragraphs_nonblank (script : string) :
  blank script = false ->
  PrompterView.paragraphs script = filter (fun p => negb (blank p)) (split script) /\
  PrompterView.paragraphs script <> [].
Proof.
  intros B. unfold PrompterView.paragraphs. rewrite filter_nonblank.
  destruct (filter _ (split script)) as [|p ps] eqn:F.
  - apply filter_nonblank_nil in F. rewrite blank_split in F. congruence.
  - split; [reflexivity|discriminate].
Qed.

(** X9.  The prompter never renders an empty list of paragraphs.  For a
    script with a character that is not white space the paragraphs are
    its lines that are not blank, in order; for any other script they are
    the single placeholder "No text provided.".  No paragraph is blank
    and none holds a line feed. *)
Theorem paragraphs_shape (script : string) :
  PrompterView.paragraphs script <> [] /\
  Forall (fun p => blank p = false /\ hasNewline p = false)
         (PrompterView.paragraphs script) /\
  (blank script = true ->
     PrompterView.paragraphs script = ["No text provided."]) /\
  (blank script = false ->
     PrompterView.paragraphs script
       = filter (fun p => negb (blank p)) (split script)).
Proof.
  destruct (blank script) eqn:B.
  - assert (E : PrompterView.paragraphs script = ["No text provided."]).
    { unfold PrompterView.paragraphs. rewrite filter_nonblank.
      destruct (filter_nonblank_nil (split script)) as [_ N].
      rewrite N; [reflexivity|]. rewrite blank_split. exact B. }
    rewrite E. split; [discriminate|]. split; [repeat constructor|].
    split; [reflexivity|discriminate].
  - destruct (paragraphs_nonblank script B) as [E N].
    split; [exact N|]. split; [|split; [discriminate|intros _; exact E]].
    rewrite E. apply Forall_forall. intros q I.
    apply filter_In in I as [I Q]. apply negb_true_iff in Q. split; [exact Q|].
    pose proof (split_no_newline script) as S.
    rewrite Forall_forall in S. apply S, I.
Qed.

(** X10.  When the Start button is enabled, the prompter gets the content
    of the active script and renders its non-blank lines, at least one:
    neither placeholder text can appear. *)
Theorem start_enabled_shows_script (st : Store) :
  Editor.startDisabled st = false ->
  exists s,
    Editor.activeScript st = Some s /\
    Editor.prompterScript st = content s /\
    PrompterView.paragraphs (Editor.prompterScript st)
      = filter (fun p => negb (blank p)) (split (content s)) /\
    PrompterView.paragraphs (Editor.prompterScript st) <> [].
Proof.
  unfold Editor.startDisabled, Editor.prompterScript.
  destruct (Editor.activeScript st) as [s|]; [|discriminate].
  rewrite truthy_trim, negb_involutive. intros B. exists s.
  assert (T : truthy (content s) = true).
  { destruct (content s); [discriminate B|reflexivity]. }
  rewrite T. split; [reflexivity|]. split; [reflexivity|].
  apply paragraphs_nonblank, B.
Qed.

Lemma start_enabled_shows_script_witness :
  let st := handleUpdateScript ("Good evening." ++ String newline
                                 (String newline "  Tonight: the weather."))
                               1 (initStore None "a" 0) in
  Editor.startDisabled st = false /\
  PrompterView.paragraphs (Editor.prompterScript st)
    = ["Good evening."; "  Tonight: the weather."].
Proof.
  cbv zeta. split; [reflexivity|].
  destruct (start_enabled_shows_script
              (handleUpdateScript ("Good evening." ++ String newline
                                     (String newline "  Tonight: the weather."))
                                  1 (initStore None "a" 0)))
    as (s & A & _ & P & _); [reflexivity|].
  rewrite P. injection A as <-. reflexivity.
Defined.

End Paragraphs.

(* ================================================================== *)
(** ** Further properties of the prompter *)
(* ================================================================== *)

Section PrompterMore.

Import Prompter PrompterView.

Local Open Scope Q_scope.
Local Open Scope list_scope.

(** Run a handler through all its tests. *)
Ltac through_tests :=
  repeat (simpl;
          match goal with
          | |- context [if ?b then _ else _] => destruct b eqn:?
          | |- context [match ?x with _ => _ end] => destruct x eqn:?
          end);
  simpl.

Ltac unfold_handlers :=
  unfold step, animate, analyzeVolume, handleKeyDown, nudge, toggleRecording,
    startRecording, stopRecording, cameraAnswer, screenAnswer, micAnswer,
    screenEnded, rerunIf, modeEffect, startCamera, startScreenShare,
    initAudioAnalysisFromStream, initAudioAnalysisOnly, attachPreview,
    stopCurrentStream, handleToggleCamera, handleToggleScreen.

(** *** The recorder *)

Lemma take_kept (e : Event) (s : State) :
  (forall built, e <> ClickRecord built) -> take (step e s) = take s.
Proof.
  intros N. unfold take.
  destruct e as [now|now data|k| |built| | | |res|res|res| |v|v];
    try (exfalso; apply (N built); reflexivity);
    unfold_handlers; through_tests; reflexivity.
Qed.

Lemma recorder_exists (s : State) :
  reachable s -> isRecording s = true -> mediaRecorderRef s <> None.
Proof.
  induction 1 as [t0 c|e s R IH]; [discriminate|].
  assert (D : (exists built, e = ClickRecord built)
              \/ forall built, e <> ClickRecord built).
  { destruct e; try (right; discriminate). left. eauto. }
  destruct D as [[built ->]|N];
    [|pose proof (take_kept e s N) as T; unfold take in T;
      injection T as -> ->; exact IH].
  simpl. unfold toggleRecording, startRecording, stopRecording.
  destruct (isRecording s) eqn:I.
  - destruct (mediaRecorderRef s) eqn:M; simpl; [discriminate|].
    rewrite I, M. exact IH.
  - destruct (mediaStreamRef s); [|congruence].
    destruct built; simpl; [discriminate|congruence].
Qed.

(** X11.  Only the record button writes [isRecording] and the recorder
    ref: every other event, switching the background source off
    included, leaves a take in progress flagged as recording. *)
Theorem only_record_button_writes_take (e : Event) (s : State) :
  (forall built, e <> ClickRecord built) ->
  isRecording (step e s) = isRecording s /\
  mediaRecorderRef (step e s) = mediaRecorderRef s.
Proof.
  intros N. pose proof (take_kept e s N) as T. unfold take in T.
  injection T as A B. split; assumption.
Qed.

Lemma only_record_button_writes_take_witness :
  isCameraOn (step ClickCamera recording) = false /\
  mediaStreamRef (step ClickCamera recording) = None /\
  isRecording (step ClickCamera recording) = true.
Proof.
  destruct (only_record_button_writes_take ClickCamera recording) as [A _].
  - discriminate.
  - rewrite A. repeat split.
Defined.

(** *** The audio graph *)

Lemma wired_step (e : Event) (s : State) : wired s -> wired (step e s).
Proof.
  unfold wired. intros W.
  destruct e as [now|now data|k| |built| | | |res|res|res| |v|v];
    unfold_handlers; through_tests; intuition congruence.
Qed.

Lemma reachable_wired (s : State) : reachable s -> wired s.
Proof.
  induction 1 as [t0 c|e s _ IH]; [discriminate|]. apply wired_step, IH.
Qed.

(** X13.  In every reachable state a granted microphone comes with an
    installed analyser: whenever a frame can pause for silence, the
    sampling that lifts the pause is in place, and a sample whose mean
    exceeds 10 then lifts it. *)
Theorem autopause_has_monitor (s : State) :
  reachable s ->
  (micPermission s = Some true -> analyserRef s = true) /\
  (forall now, shouldPauseForSilence now s = true -> analyserRef s = true) /\
  (forall now t data,
     shouldPauseForSilence now s = true -> 10 < average data ->
     isAutoPaused (analyzeVolume t data (fst (animate now s))) = false).
Proof.
  intros R. pose proof (reachable_wired s R) as W. unfold wired in W.
  assert (P : forall now, shouldPauseForSilence now s = true -> analyserRef s = true).
  { intros now H. apply shouldPauseForSilence_iff in H as [M _]. apply W, M. }
  split; [intros M; apply W, M|]. split; [exact P|].
  intros now t data H L. apply Qgtb_lt in L.
  assert (A : analyserRef (fst (animate now s)) = true).
  { specialize (P now H). unfold animate.
    destruct (containerRef s); [|exact P]. destruct (isPlaying s); [|exact P].
    rewrite H. exact P. }
  unfold analyzeVolume. rewrite A, L. reflexivity.
Qed.

Lemma autopause_has_monitor_witness :
  let s := step ClickPlay listening in
  isAutoPaused (step (Frame 2001) s) = true /\
  isAutoPaused (analyzeVolume 2002 [0; 255]%Z (step (Frame 2001) s)) = false.
Proof.
  cbv zeta. split; [reflexivity|].
  destruct (autopause_has_monitor (step ClickPlay listening)) as (_ & _ & A).
  - apply reach_step, reachable_run. constructor.
  - apply (A 2001%Z 2002%Z [0; 255]%Z); reflexivity.
Defined.

(** *** Leaving a background source *)

Ltac open_state s :=
  destruct s as [speed silence playing paused volume mic cam screen rec
                 container ctx analyser noise acc preview stream recorder log];
  simpl in *; subst; simpl in *; subst.

Lemma leave_camera (s : State) :
  exclusive s -> isCameraOn s = true ->
  mode (step ClickCamera s) = (false, false) /\
  mediaStreamRef (step ClickCamera s) = None /\
  effects (step ClickCamera s)
    = effects s ++ released s ++ detached s ++ closed s ++ [GetUserMedia false].
Proof.
  unfold exclusive, mode, released, detached, closed. intros X C.
  open_state s. unfold_handlers. simpl.
  destruct stream, preview, ctx; simpl; rewrite <- ?app_assoc; auto.
Qed.

Lemma leave_screen (s : State) :
  exclusive s -> isScreenShareOn s = true ->
  mode (step ClickScreen s) = (false, false) /\
  mediaStreamRef (step ClickScreen s) = None /\
  effects (step ClickScreen s)
    = effects s ++ released s ++ detached s ++ closed s ++ [GetUserMedia false].
Proof.
  unfold exclusive, mode, released, detached, closed. intros X C.
  open_state s. rewrite andb_true_r in X. subst. unfold_handlers. simpl.
  destruct stream, preview, ctx; simpl; rewrite <- ?app_assoc; auto.
Qed.

Lemma screen_ended (s : State) :
  exclusive s -> isScreenShareOn s = true ->
  mode (step ScreenEnded s) = (false, false) /\
  mediaStreamRef (step ScreenEnded s) = None /\
  effects (step ScreenEnded s)
    = effects s ++ released s ++ detached s ++ closed s ++ [GetUserMedia false]
      ++ detached s ++ closed s ++ [GetUserMedia false].
Proof.
  unfold exclusive, mode, released, detached, closed. intros X C.
  open_state s. rewrite andb_true_r in X. subst. unfold_handlers. simpl.
  destruct stream, preview, ctx; simpl; rewrite <- ?app_assoc; auto.
Qed.

(** X14.  In a reachable state, switching the active source off with its
    button leaves no source on, stops every track of the stream held,
    detaches the preview, closes the audio graph if there is one and asks
    for the microphone alone.  When the browser's own control ends a
    screen share the same happens, and the mode effect that follows
    detaches the preview and asks for the microphone a second time. *)
Theorem leaving_a_source (s : State) :
  reachable s ->
  (isCameraOn s = true ->
     mode (step ClickCamera s) = (false, false) /\
     mediaStreamRef (step ClickCamera s) = None /\
     effects (step ClickCamera s)
       = effects s ++ released s ++ detached s ++ closed s ++ [GetUserMedia false]) /\
  (isScreenShareOn s = true ->
     mode (step ClickScreen s) = (false, false) /\
     mediaStreamRef (step ClickScreen s) = None /\
     effects (step ClickScreen s)
       = effects s ++ released s ++ detached s ++ closed s ++ [GetUserMedia false]) /\
  (isScreenShareOn s = true ->
     mode (step ScreenEnded s) = (false, false) /\
     mediaStreamRef (step ScreenEnded s) = None /\
     effects (step ScreenEnded s)
       = effects s ++ released s ++ detached s ++ closed s ++ [GetUserMedia false]
         ++ detached s ++ closed s ++ [GetUserMedia false]).
Proof.
  intros R. pose proof (reachable_exclusive s R) as X.
  split; [apply leave_camera, X|].
  split; [apply leave_screen, X|apply screen_ended, X].
Qed.

Lemma leaving_a_source_witness :
  mode (step ScreenEnded sharing) = (false, false) /\
  effects (step ScreenEnded sharing)
    = effects sharing ++
      [TrackStop (mkTrack 7 VideoTrack); PreviewSrc None; GetUserMedia false;
       PreviewSrc None; GetUserMedia false].
Proof.
  destruct (leaving_a_source sharing) as (_ & _ & A).
  - apply reachable_run. constructor.
  - destruct (A eq_refl) as (M & _ & E). split; [exact M|exact E].
Defined.

(** *** Speed, threshold and accumulator under the controls *)

Lemma settled_knobs (s s' : State) : knobs s' = knobs s -> settled s -> settled s'.
Proof.
  unfold knobs, settled. intros E. injection E as -> -> ->. tauto.
Qed.

Lemma knobs_step (e : Event) (s : State) :
  match e with
  | Frame _ | KeyDown _ | SlideSpeed _ | SlideSilence _ => True
  | _ => knobs (step e s) = knobs s
  end.
Proof.
  unfold knobs.
  destruct e as [now|now data|k| |built| | | |res|res|res| |v|v]; try exact I;
    unfold_handlers; through_tests; reflexivity.
Qed.

Lemma halves_eq (q r : Q) : q == r -> halves q -> halves r.
Proof. intros E [k H]. exists k. rewrite <- E. exact H. Qed.

Lemma speed_up (v : Q) :
  0 <= v /\ v <= 20 /\ halves v ->
  0 <= Qmin 20 (v + (1#2)) /\ Qmin 20 (v + (1#2)) <= 20 /\
  halves (Qmin 20 (v + (1#2))).
Proof.
  intros (L & U & k & H).
  destruct (Q.min_spec 20 (v + (1#2))) as [[C E]|[C E]].
  - split; [rewrite E; lra|]. split; [rewrite E; lra|].
    apply halves_eq with (q := 20); [symmetry; exact E|].
    exists 40%Z. reflexivity.
  - split; [rewrite E; lra|]. split; [rewrite E; lra|].
    apply halves_eq with (q := v + (1#2)); [symmetry; exact E|].
    exists (k + 1)%Z. rewrite inject_Z_plus. change (inject_Z 1) with 1. lra.
Qed.

Lemma speed_down (v : Q) :
  0 <= v /\ v <= 20 /\ halves v ->
  0 <= Qmax 0 (v - (1#2)) /\ Qmax 0 (v - (1#2)) <= 20 /\
  halves (Qmax 0 (v - (1#2))).
Proof.
  intros (L & U & k & H).
  destruct (Q.max_spec 0 (v - (1#2))) as [[C E]|[C E]].
  - split; [rewrite E; lra|]. split; [rewrite E; lra|].
    apply halves_eq with (q := v - (1#2)); [symmetry; exact E|].
    exists (k - 1)%Z. unfold Z.sub. rewrite inject_Z_plus.
    change (inject_Z (- (1))) with (- (1)). lra.
  - split; [rewrite E; lra|]. split; [rewrite E; lra|].
    apply halves_eq with (q := 0); [symmetry; exact E|].
    exists 0%Z. reflexivity.
Qed.

(** What a key press does to the three numbers: at most one step up,
    then at most one step down, of the speed. *)
Lemma keys_knobs (e : KeyboardEvent) (s : State) :
  exists up down : bool,
    knobs (handleKeyDown e s)
    = (let v := if up then Qmin 20 (scrollSpeed s + (1#2)) else scrollSpeed s in
       if down then Qmax 0 (v - (1#2)) else v,
       silenceThresholdSeconds s, scrollAccumulator s).
Proof.
  exists (String.eqb (key e) "+" || String.eqb (code e) "NumpadAdd"
          || String.eqb (key e) "=").
  exists (String.eqb (key e) "-" || String.eqb (code e) "NumpadSubtract"
          || String.eqb (key e) "_").
  unfold knobs, handleKeyDown, nudge. cbv zeta.
  destruct s as [speed silence playing paused volume mic cam screen rec
                 container ctx analyser noise acc preview stream recorder log].
  destruct (String.eqb (code e) "Space");
    destruct (String.eqb (code e) "ArrowUp");
    destruct (String.eqb (code e) "ArrowDown");
    destruct (String.eqb (key e) "+" || String.eqb (code e) "NumpadAdd"
              || String.eqb (key e) "=");
    destruct (String.eqb (key e) "-" || String.eqb (code e) "NumpadSubtract"
              || String.eqb (key e) "_");
    destruct container; reflexivity.
Qed.

Lemma settled_keys (e : KeyboardEvent) (s : State) :
  settled s -> settled (handleKeyDown e s).
Proof.
  intros (V & T & A). destruct (keys_knobs e s) as (up & down & K).
  unfold knobs in K. injection K as K1 K2 K3.
  unfold settled. rewrite K1, K2, K3. split; [|split; assumption].
  destruct up, down; cbv zeta; auto using speed_up, speed_down.
Qed.

Lemma settled_animate (now : Z) (s : State) :
  settled s -> settled (fst (animate now s)).
Proof.
  intros St. pose proof St as (V & T & A0 & A1 & ka & Ha).
  pose proof V as (V0 & V1 & ks & Hs).
  unfold animate. destruct (containerRef s); [|exact St].
  destruct (isPlaying s); [|exact St].
  destruct (shouldPauseForSilence now s); [exact St|].
  cbn [scrollAccumulator scrollSpeed set_isAutoPaused].
  assert (H : 0 <= scrollAccumulator s + scrollSpeed s * (1#2)) by nra.
  pose proof (carry_bounds _ H) as B. cbv zeta in B.
  assert (Qa : scrollAccumulator s + scrollSpeed s * (1#2)
               == inject_Z (ka + ks) * (1#4)).
  { rewrite inject_Z_plus. lra. }
  destruct (Qle_bool 1 (scrollAccumulator s + scrollSpeed s * (1#2))) eqn:L;
    cbn [fst]; unfold settled;
    cbn [scrollSpeed silenceThresholdSeconds scrollAccumulator
         set_scrollAccumulator set_containerRef set_isAutoPaused];
    destruct B as (_ & B1 & B2).
  - split; [exact V|]. split; [exact T|].
    split; [exact B1|]. split; [exact B2|].
    exists (ka + ks - 4 * Qfloor (scrollAccumulator s + scrollSpeed s * (1#2)))%Z.
    unfold Z.sub. rewrite inject_Z_plus, inject_Z_opp, inject_Z_mult.
    change (inject_Z 4) with 4. lra.
  - change (inject_Z 0) with 0 in B1, B2.
    split; [exact V|]. split; [exact T|].
    split; [lra|]. split; [lra|]. exists (ka + ks)%Z. exact Qa.
Qed.

Lemma settled_step (e : Event) (s : State) :
  uiEvent e -> settled s -> settled (step e s).
Proof.
  intros U St. pose proof (knobs_step e s) as K.
  destruct e as [now|now data|k| |built| | | |res|res|res| |v|v];
    try (apply settled_knobs with (1 := K), St).
  - apply settled_animate, St.
  - apply settled_keys, St.
  - destruct U as (U1 & U2 & U3). destruct St as (_ & T & A).
    unfold settled.
    cbn [step scrollSpeed silenceThresholdSeconds scrollAccumulator set_scrollSpeed].
    split; [|split; assumption]. split; [exact U1|]. split; [lra|exact U3].
  - destruct U as (U1 & U2 & _). destruct St as (V & _ & A).
    unfold settled.
    cbn [step scrollSpeed silenceThresholdSeconds scrollAccumulator
         set_silenceThresholdSeconds].
    split; [exact V|]. split; [split; assumption|exact A].
Qed.

Lemma settled_mounted (t0 : Z) (c : Container) : settled (mounted t0 c).
Proof.
  unfold settled; simpl. repeat split; try discriminate.
  - exists 4%Z. reflexivity.
  - exists 0%Z. reflexivity.
Qed.

(** X15.  Under the controls as rendered (speed slider 0 to 15, silence
    slider 1 to 10, both in steps of 0.5, the +/- keys) the scroll speed
    stays a multiple of 0.5 within [0, 20], the silence threshold stays
    within [1, 10], and between frames the accumulator holds a multiple
    of 0.25 that is at least 0 and less than 1. *)
Theorem controls_stay_settled (s : State) :
  reachableUI s ->
  (0 <= scrollSpeed s /\ scrollSpeed s <= 20 /\ halves (scrollSpeed s)) /\
  (1 <= silenceThresholdSeconds s /\ silenceThresholdSeconds s <= 10) /\
  (0 <= scrollAccumulator s /\ scrollAccumulator s < 1 /\
   quarters (scrollAccumulator s)).
Proof.
  induction 1 as [t0 c|e s _ IH U].
  - apply settled_mounted.
  - apply settled_step; assumption.
Qed.

Lemma controls_stay_settled_witness :
  let s := run [SlideSpeed (3#2); ClickPlay; Frame 16; Frame 33] (mounted 0 page) in
  scrollAccumulator s == 1#2 /\ 0 <= scrollSpeed s /\ scrollAccumulator s < 1.
Proof.
  cbv zeta. split; [reflexivity|].
  destruct (controls_stay_settled
              (run [SlideSpeed (3#2); ClickPlay; Frame 16; Frame 33] (mounted 0 page)))
    as ((V & _) & _ & _ & A & _).
  - change (reachableUI
              (step (Frame 33) (step (Frame 16) (step ClickPlay
                 (step (SlideSpeed (3#2)) (mounted 0 page)))))).
    repeat (apply ui_step; [|try exact I]).
    + constructor.
    + split; [discriminate|]. split; [discriminate|]. exists 3%Z. reflexivity.
  - split; assumption.
Defined.

(** *** Frames that do not scroll *)

Lemma animate_idle (now : Z) (s : State) :
  isPlaying s = false \/ containerRef s = None -> animate now s = (s, 0%Z).
Proof.
  unfold animate. intros [H|H]; rewrite H; [|reflexivity].
  destruct (containerRef s); reflexivity.
Qed.

Lemma animate_paused (now : Z) (s : State) :
  shouldPauseForSilence now s = true ->
  snd (animate now s) = 0%Z /\
  containerRef (fst (animate now s)) = containerRef s /\
  knobs (fst (animate now s)) = knobs s.
Proof.
  intros H. unfold animate. destruct (containerRef s) eqn:C; [|auto].
  destruct (isPlaying s); [|auto]. rewrite H. simpl. auto.
Qed.

(** X16.  A prompter that is stopped, or has no container, is left
    exactly as it is by any number of frames, and none of them scrolls.
    Frames that all find a reason to pause scroll nothing either and keep
    the scroll position, the speed and the accumulator, so that scrolling
    resumes with the remainder it had. *)
Theorem idle_frames (nows : list Z) (s : State) :
  (isPlaying s = false \/ containerRef s = None ->
     frames nows s = (s, repeat 0%Z (List.length nows))) /\
  ((forall now, In now nows -> shouldPauseForSilence now s = true) ->
     total (snd (frames nows s)) = 0%Z /\
     containerRef (fst (frames nows s)) = containerRef s /\
     scrollAccumulator (fst (frames nows s)) = scrollAccumulator s /\
     scrollSpeed (fst (frames nows s)) = scrollSpeed s).
Proof.
  split.
  - intros H. induction nows as [|now rest IH]; [reflexivity|].
    rewrite frames_cons, (animate_idle now s H). simpl. rewrite IH. reflexivity.
  - revert s. induction nows as [|now rest IH]; intros s H; [simpl; auto|].
    rewrite frames_cons. cbn [fst snd].
    destruct (animate_paused now s (H now (or_introl eq_refl))) as (D & C & K).
    destruct (animate_keeps now s) as (_ & _ & _ & P).
    destruct (IH (fst (animate now s))) as (T & C' & A' & V').
    { intros t I. rewrite P. apply H. right. exact I. }
    unfold knobs in K. injection K as K1 _ K3.
    change (total (snd (animate now s) :: snd (frames rest (fst (animate now s)))))
      with (snd (animate now s) + total (snd (frames rest (fst (animate now s)))))%Z.
    rewrite D, T, C', A', V'. auto.
Qed.

(** *** The progress bar *)

Lemma progress_fraction (a m : Z) :
  (0 < m)%Z -> (0 <= a <= m)%Z ->
  0 <= inject_Z a / inject_Z m * 100 /\ inject_Z a / inject_Z m * 100 <= 100.
Proof.
  intros M [A0 A1].
  assert (Pm : 0 < inject_Z m) by (change 0 with (inject_Z 0); rewrite <- Zlt_Qlt; exact M).
  assert (Pa : 0 <= inject_Z a) by (change 0 with (inject_Z 0); rewrite <- Zle_Qle; exact A0).
  assert (Pb : inject_Z a <= inject_Z m) by (rewrite <- Zle_Qle; exact A1).
  assert (L : 0 <= inject_Z a / inject_Z m).
  { apply Qle_shift_div_l; [exact Pm|]. lra. }
  assert (U : inject_Z a / inject_Z m <= 1).
  { apply Qle_shift_div_r; [exact Pm|]. lra. }
  split; lra.
Qed.

(** X17.  The progress bar is always between 0 and 100 percent wide: 0
    when there is nothing to scroll, the scrolled fraction of the extent
    when the offset lies within it, and never narrower for a larger
    offset over the same extent. *)
Theorem progress_bar (c : Container) :
  0 <= progressWidth c /\ progressWidth c <= 100 /\
  ((maxScroll c <= 0)%Z -> progressWidth c == 0) /\
  ((0 < maxScroll c)%Z -> (0 <= scrollTop c <= maxScroll c)%Z ->
     progressWidth c == inject_Z (scrollTop c) / inject_Z (maxScroll c) * 100) /\
  (forall c',
     scrollHeight c' = scrollHeight c -> clientHeight c' = clientHeight c ->
     (scrollTop c <= scrollTop c')%Z -> progressWidth c <= progressWidth c').
Proof.
  unfold progressWidth. cbv zeta. fold (maxScroll c).
  split; [|split; [|split; [|split]]].
  - apply Q.min_glb; [discriminate|apply Q.le_max_l].
  - apply Q.le_min_l.
  - intros H. destruct (Z.ltb_spec 0 (maxScroll c)) as [G|_]; [lia|]. reflexivity.
  - intros M B. destruct (Z.ltb_spec 0 (maxScroll c)) as [_|G]; [|lia].
    destruct (progress_fraction _ _ M B) as [L U].
    rewrite Q.max_r by exact L. apply Q.min_r. exact U.
  - intros c' EH EC T. unfold maxScroll. rewrite EH, EC.
    apply Q.min_le_compat_l, Q.max_le_compat_l.
    destruct (Z.ltb_spec 0 (scrollHeight c - clientHeight c)) as [G|_];
      [|apply Qle_refl].
    apply Qmult_le_compat_r; [|discriminate].
    apply Qmult_le_compat_r; [rewrite <- Zle_Qle; exact T|].
    apply Qinv_le_0_compat. change 0 with (inject_Z 0). rewrite <- Zle_Qle. lia.
Qed.

(** *** What counts as noise *)

Lemma fold_add (l : list Z) : forall a : Z,
  fold_left Z.add l a = (a + fold_left Z.add l 0)%Z.
Proof.
  induction l as [|x l IH]; intros a; simpl; [lia|].
  rewrite (IH (a + x)%Z), (IH x). lia.
Qed.

Lemma sum_cons (x : Z) (l : list Z) : sum (x :: l) = (x + sum l)%Z.
Proof. unfold sum. simpl. apply fold_add. Qed.

Lemma sum_bytes (data : list Z) :
  Forall (fun b => (0 <= b <= 255)%Z) data ->
  (0 <= sum data <= 255 * Z.of_nat (List.length data))%Z.
Proof.
  induction 1 as [|x l H _ IH]; [unfold sum; simpl; lia|].
  rewrite sum_cons. change (List.length (x :: l)) with (S (List.length l)). lia.
Qed.

(** The mean exceeds 10 exactly when the sum exceeds ten times the
    number of bins. *)
Lemma loud_iff (data : list Z) :
  Qgtb (average data) 10 = true <->
  (10 * Z.of_nat (List.length data) < sum data)%Z.
Proof.
  rewrite Qgtb_lt. unfold average.
  destruct data as [|x l];
    [split; [intros H; vm_compute in H; discriminate H|unfold sum; simpl; lia]|].
  change (List.length (x :: l)) with (S (List.length l)).
  destruct (Z.of_nat (S (List.length l))) as [|p|p] eqn:E; try lia.
  unfold Qlt, Qdiv, Qmult, Qinv; simpl. lia.
Qed.

Lemma average_bytes (data : list Z) :
  Forall (fun b => (0 <= b <= 255)%Z) data ->
  0 <= average data /\ average data <= 255.
Proof.
  intros H. apply sum_bytes in H. unfold average.
  destruct (Z.of_nat (List.length data)) as [|p|p] eqn:E; try lia.
  - unfold Qle, Qdiv, Qmult, Qinv; simpl. rewrite ?Z.mul_0_r. lia.
  - unfold Qle, Qdiv, Qmult, Qinv; simpl. lia.
Qed.

(** X18.  Without an analyser a sample changes nothing.  With one, the
    sample is noise exactly when the sum of the bins exceeds ten times
    their number: noise stamps [lastNoiseTime] and clears the auto-pause,
    anything else leaves both alone.  For byte data the level stored is
    between 0 and 255 and the level meter between 0 and 100 percent. *)
Theorem sample_detection (now : Z) (data : list Z) (s : State) :
  (analyserRef s = false -> analyzeVolume now data s = s) /\
  (analyserRef s = true ->
     currentVolume (analyzeVolume now data s) = average data /\
     ((10 * Z.of_nat (List.length data) < sum data)%Z ->
        lastNoiseTime (analyzeVolume now data s) = now /\
        isAutoPaused (analyzeVolume now data s) = false) /\
     ((sum data <= 10 * Z.of_nat (List.length data))%Z ->
        lastNoiseTime (analyzeVolume now data s) = lastNoiseTime s /\
        isAutoPaused (analyzeVolume now data s) = isAutoPaused s) /\
     (Forall (fun b => (0 <= b <= 255)%Z) data ->
        0 <= currentVolume (analyzeVolume now data s) /\
        currentVolume (analyzeVolume now data s) <= 255 /\
        0 <= meterWidth (analyzeVolume now data s) /\
        meterWidth (analyzeVolume now data s) <= 100)).
Proof.
  unfold analyzeVolume. split; [intros A; rewrite A; reflexivity|].
  intros A. rewrite A. pose proof (loud_iff data) as L.
  assert (V : currentVolume
                (if Qgtb (average data) 10
                 then set_isAutoPaused false
                        (set_lastNoiseTime now (set_currentVolume (average data) s))
                 else set_currentVolume (average data) s) = average data).
  { destruct (Qgtb (average data) 10); reflexivity. }
  split; [exact V|]. split; [|split].
  - intros H. apply L in H. rewrite H. split; reflexivity.
  - intros H. destruct (Qgtb (average data) 10) eqn:G;
      [destruct L as [L _]; specialize (L eq_refl); lia|].
    split; reflexivity.
  - intros B. apply average_bytes in B as [B0 B1].
    unfold meterWidth. rewrite V.
    split; [exact B0|]. split; [exact B1|]. split.
    + apply Q.min_glb; [lra|discriminate].
    + apply Q.le_min_r.
Qed.

(** *** Takes *)

Lemma linked_effect (t : Take) :
  (isRecording (prompter t) = true \/ recordedChunks t = [] -> downloadUrl t = None) ->
  linked (downloadEffect t).
Proof.
  unfold linked, downloadEffect. intros H.
  destruct (isRecording (prompter t)) eqn:R; simpl.
  - rewrite R. simpl. apply H. left. reflexivity.
  - destruct (recordedChunks t) as [|b l] eqn:C; simpl.
    + rewrite R, C. simpl. apply H. right. reflexivity.
    + rewrite R. reflexivity.
Qed.

Lemma linked_none (t : Take) :
  linked t ->
  isRecording (prompter t) = true \/ recordedChunks t = [] -> downloadUrl t = None.
Proof.
  unfold linked. intros L [H|H]; rewrite L, H; [reflexivity|].
  rewrite orb_true_r. reflexivity.
Qed.

Lemma linked_step (ev : TakeEvent) (t : Take) : linked t -> linked (takeStep ev t).
Proof.
  intros L. pose proof (linked_none t L) as N.
  unfold takeStep. apply linked_effect.
  destruct ev as [e|b].
  - assert (D : (exists built, e = ClickRecord built)
                \/ forall built, e <> ClickRecord built).
    { destruct e; try (right; discriminate). left. eauto. }
    destruct D as [[built ->]|D].
    + destruct (isRecording (prompter t)) eqn:R; simpl.
      * intros _. apply N. left. reflexivity.
      * unfold startTake. destruct (mediaStreamRef (prompter t)); simpl.
        -- reflexivity.
        -- rewrite R. intros [H|H]; [discriminate H|]. apply N. right. exact H.
    + pose proof (take_kept e (prompter t) D) as T. unfold take in T.
      injection T as T _.
      assert (X : isRecording (step e (prompter t)) = true \/ recordedChunks t = []
                  -> downloadUrl t = None).
      { rewrite T. exact N. }
      destruct e; try exact X. exfalso. apply (D built). reflexivity.
  - unfold ondataavailable. destruct (0 <? size b)%Z; simpl; [|exact N].
    intros [H|H]; [apply N; left; exact H|].
    destruct (recordedChunks t); discriminate H.
Qed.

Lemma chunks_step (ev : TakeEvent) (t : Take) :
  Forall (fun b => (0 < size b)%Z) (recordedChunks t) ->
  Forall (fun b => (0 < size b)%Z) (recordedChunks (takeStep ev t)).
Proof.
  intros F.
  assert (E : forall t', recordedChunks (downloadEffect t') = recordedChunks t').
  { intros t'. unfold downloadEffect. destruct (_ && _); reflexivity. }
  unfold takeStep. rewrite E. destruct ev as [e|b].
  - destruct e; try exact F.
    destruct (isRecording (prompter t)); [exact F|].
    unfold startTake. destruct (mediaStreamRef (prompter t)); [constructor|exact F].
  - unfold ondataavailable. destruct (Z.ltb_spec 0 (size b)); simpl; [|exact F].
    apply Forall_app. split; [exact F|]. constructor; [assumption|constructor].
Qed.

Lemma prompter_downloadEffect (t : Take) : prompter (downloadEffect t) = prompter t.
Proof. unfold downloadEffect. destruct (_ && _); reflexivity. Qed.

Lemma chunks_downloadEffect (t : Take) :
  recordedChunks (downloadEffect t) = recordedChunks t.
Proof. unfold downloadEffect. destruct (_ && _); reflexivity. Qed.

Lemma downloadEffect_fixed (t : Take) : linked t -> downloadEffect t = t.
Proof.
  unfold linked, downloadEffect. destruct t as [p l u]; simpl. intros ->.
  destruct (isRecording p); simpl; [reflexivity|].
  destruct l; reflexivity.
Qed.

Lemma prompter_takeStep (ev : TakeEvent) (t : Take) :
  prompter (takeStep ev t) =
  match ev with
  | Ui e => step e (prompter t)
  | DataAvailable _ => prompter t
  end.
Proof.
  unfold takeStep. rewrite prompter_downloadEffect. destruct ev as [e|b].
  - destruct e; try reflexivity. simpl. unfold toggleRecording, startTake.
    destruct (isRecording (prompter t)); [reflexivity|].
    unfold startRecording. destruct (mediaStreamRef (prompter t)); reflexivity.
  - unfold ondataavailable. destruct (0 <? size b)%Z; reflexivity.
Qed.

(** What one event does to the chunks. *)
Lemma chunks_takeStep (ev : TakeEvent) (t : Take) :
  recordedChunks (takeStep ev t) =
  match ev with
  | Ui (ClickRecord _) =>
      if isRecording (prompter t) then recordedChunks t
      else match mediaStreamRef (prompter t) with
           | Some _ => []
           | None => recordedChunks t
           end
  | Ui _ => recordedChunks t
  | DataAvailable b =>
      if (0 <? size b)%Z then recordedChunks t ++ [b] else recordedChunks t
  end.
Proof.
  unfold takeStep. rewrite chunks_downloadEffect. destruct ev as [e|b].
  - destruct e; try reflexivity.
    destruct (isRecording (prompter t)); [reflexivity|].
    unfold startTake. destruct (mediaStreamRef (prompter t)); reflexivity.
  - unfold ondataavailable. destruct (0 <? size b)%Z; reflexivity.
Qed.

Lemma start_clears (built : bool) (t : Take) :
  isRecording (prompter t) = false ->
  mediaStreamRef (prompter t) <> None ->
  recordedChunks (takeStep (Ui (ClickRecord built)) t) = [] /\
  downloadUrl (takeStep (Ui (ClickRecord built)) t) = None.
Proof.
  intros I M. unfold takeStep. rewrite I. unfold startTake.
  destruct (mediaStreamRef (prompter t)); [|contradiction].
  unfold downloadEffect. simpl. rewrite andb_false_r. split; reflexivity.
Qed.

Lemma take_invariant (t : Take) :
  reachableTake t ->
  linked t /\ Forall (fun b => (0 < size b)%Z) (recordedChunks t).
Proof.
  induction 1 as [t0 c|ev t _ [L F]].
  - split; [reflexivity|constructor].
  - split; [apply linked_step, L|apply chunks_step, F].
Qed.

Lemma reachableTake_prompter (t : Take) : reachableTake t -> reachable (prompter t).
Proof.
  induction 1 as [t0 c|ev t _ IH]; [constructor|].
  rewrite prompter_takeStep. destruct ev; [apply reach_step|]; exact IH.
Qed.

Lemma reachableTake_run (evs : list TakeEvent) (t : Take) :
  reachableTake t -> reachableTake (runTake evs t).
Proof.
  revert t. induction evs as [|ev evs IH]; intros t R; [exact R|].
  apply IH. constructor. exact R.
Qed.

(** Events other than the record button keep the recording flag and the
    recorder, and add to the chunks what they deliver. *)
Lemma runTake_delivers (evs : list TakeEvent) (t : Take) :
  Forall noRecordClick evs ->
  take (prompter (runTake evs t)) = take (prompter t) /\
  recordedChunks (runTake evs t) = recordedChunks t ++ delivered evs.
Proof.
  revert t. induction evs as [|ev evs IH]; intros t F.
  - simpl. rewrite app_nil_r. auto.
  - inversion F as [|x l N F' E]; subst.
    change (runTake (ev :: evs) t) with (runTake evs (takeStep ev t)).
    destruct (IH (takeStep ev t) F') as [T C]. rewrite T, C. clear T C IH.
    rewrite prompter_takeStep, chunks_takeStep. destruct ev as [e|b].
    + assert (N' : forall built, e <> ClickRecord built).
      { intros built ->. exact (N built eq_refl). }
      split; [apply take_kept, N'|].
      destruct e; try reflexivity. exfalso. exact (N' built eq_refl).
    + split; [reflexivity|]. simpl.
      destruct (0 <? size b)%Z; [rewrite <- app_assoc|]; reflexivity.
Qed.

(** X12.  In every reachable state a recording in progress has its
    recorder, so the record button then always ends the take and stops
    playback; the chunks are kept and the link is built from them, if
    there are any.  With no recording in progress and no background stream
    the button changes nothing.  With a stream held it first discards the
    chunks and the link of the take before; if the recorder cannot be
    built nothing else changes, and otherwise a take starts over the
    stream held, leaving playback as it is. *)
Theorem record_button (t : Take) :
  reachableTake t ->
  (isRecording (prompter t) = true ->
     mediaRecorderRef (prompter t) <> None /\
     forall built,
       let t' := takeStep (Ui (ClickRecord built)) t in
       isRecording (prompter t') = false /\
       isPlaying (prompter t') = false /\
       recordedChunks t' = recordedChunks t /\
       downloadUrl t' =
         match recordedChunks t with [] => None | l => Some l end) /\
  (isRecording (prompter t) = false ->
     (mediaStreamRef (prompter t) = None ->
      forall built, takeStep (Ui (ClickRecord built)) t = t) /\
     (forall stream, mediaStreamRef (prompter t) = Some stream ->
        (let t' := takeStep (Ui (ClickRecord false)) t in
         prompter t' = prompter t /\
         recordedChunks t' = [] /\
         downloadUrl t' = None) /\
        (let t' := takeStep (Ui (ClickRecord true)) t in
         isRecording (prompter t') = true /\
         mediaRecorderRef (prompter t') = Some stream /\
         isPlaying (prompter t') = isPlaying (prompter t) /\
         recordedChunks t' = [] /\
         downloadUrl t' = None))).
Proof.
  intros R. destruct (take_invariant t R) as [L _].
  pose proof (reachableTake_prompter t R) as P. split.
  - intros I. pose proof (recorder_exists _ P I) as M. split; [exact M|].
    intros built t'.
    assert (S1 : prompter t' = stopRecording (prompter t)).
    { unfold t'. rewrite prompter_takeStep. simpl. unfold toggleRecording.
      rewrite I. reflexivity. }
    assert (C : recordedChunks t' = recordedChunks t).
    { unfold t'. rewrite chunks_takeStep, I. reflexivity. }
    assert (I' : isRecording (prompter t') = false).
    { rewrite S1. unfold stopRecording.
      destruct (mediaRecorderRef (prompter t)); [reflexivity|contradiction]. }
    split; [exact I'|]. split; [|split; [exact C|]].
    + rewrite S1. unfold stopRecording.
      destruct (mediaRecorderRef (prompter t)); [reflexivity|contradiction].
    + pose proof (linked_step (Ui (ClickRecord built)) t L) as L'.
      fold t' in L'. unfold linked in L'. rewrite L', I', C.
      destruct (recordedChunks t); reflexivity.
  - intros I. split.
    + intros M built. unfold takeStep. rewrite I. unfold startTake. rewrite M.
      apply downloadEffect_fixed, L.
    + intros stream M.
      assert (M' : mediaStreamRef (prompter t) <> None) by congruence.
      split; intros t'.
      * destruct (start_clears false t I M') as [C U]. fold t' in C, U.
        split; [|split; assumption].
        unfold t'. rewrite prompter_takeStep. simpl.
        unfold toggleRecording, startRecording. rewrite I, M. reflexivity.
      * destruct (start_clears true t I M') as [C U]. fold t' in C, U.
        assert (S1 : prompter t' = startRecording true (prompter t)).
        { unfold t'. rewrite prompter_takeStep. simpl. unfold toggleRecording.
          rewrite I. reflexivity. }
        rewrite S1. unfold startRecording. rewrite M. simpl. auto.
Qed.

Lemma record_button_witness :
  isRecording (prompter filming) = true /\
  isRecording (prompter filmed) = false /\
  isPlaying (prompter filmed) = false /\
  downloadUrl filmed = Some [mkBlob 5] /\
  recordedChunks (takeStep (Ui (ClickRecord false)) filmed) = [] /\
  downloadUrl (takeStep (Ui (ClickRecord false)) filmed) = None /\
  prompter (takeStep (Ui (ClickRecord false)) filmed) = prompter filmed /\
  takeStep (Ui (ClickRecord true)) fresh = fresh.
Proof.
  destruct (record_button (takeStep (DataAvailable (mkBlob 5)) filming)) as [A _];
    [apply take_step, reachableTake_run; constructor|].
  destruct (A eq_refl) as [_ B]. destruct (B true) as (B1 & B2 & _ & B4).
  destruct (record_button filmed) as [_ C];
    [apply reachableTake_run, reachableTake_run; constructor|].
  destruct (C eq_refl) as [_ C2].
  destruct (C2 cameraStream eq_refl) as [(D1 & D2 & D3) _].
  destruct (record_button fresh) as [_ E]; [constructor|].
  destruct (E eq_refl) as [E1 _].
  split; [reflexivity|]. split; [exact B1|]. split; [exact B2|].
  split; [exact B4|]. split; [exact D2|]. split; [exact D3|].
  split; [exact D1|]. apply E1. reflexivity.
Defined.

(** X19.  At every moment the download link exists exactly when no take
    is being recorded and at least one chunk is kept, and it is then built
    from all the chunks kept; no empty chunk is ever kept.  Pressing the
    record button while no take runs and a stream is held empties the
    chunks and removes the link; a data event appends its blob if the
    blob is not empty; nothing else changes the chunks.  So when a take
    that was started is stopped, the chunks are exactly the non-empty
    blobs delivered since its start, and the link is built from them, or
    absent if there are none. *)
Theorem download_link (t : Take) :
  reachableTake t ->
  downloadUrl t =
    (if isRecording (prompter t) || (List.length (recordedChunks t) =? 0)%nat
     then None else Some (recordedChunks t)) /\
  Forall (fun b => (0 < size b)%Z) (recordedChunks t) /\
  (forall built,
     isRecording (prompter t) = false -> mediaStreamRef (prompter t) <> None ->
     recordedChunks (takeStep (Ui (ClickRecord built)) t) = [] /\
     downloadUrl (takeStep (Ui (ClickRecord built)) t) = None) /\
  (forall b,
     recordedChunks (takeStep (DataAvailable b) t) =
       if (0 <? size b)%Z then recordedChunks t ++ [b] else recordedChunks t) /\
  (forall e,
     (forall built, e <> ClickRecord built) \/
     isRecording (prompter t) = true \/ mediaStreamRef (prompter t) = None ->
     recordedChunks (takeStep (Ui e) t) = recordedChunks t) /\
  (forall evs built,
     isRecording (prompter t) = false -> mediaStreamRef (prompter t) <> None ->
     Forall noRecordClick evs ->
     let t' := takeStep (Ui (ClickRecord built))
                 (runTake evs (takeStep (Ui (ClickRecord true)) t)) in
     isRecording (prompter t') = false /\
     recordedChunks t' = delivered evs /\
     downloadUrl t' = match delivered evs with [] => None | l => Some l end).
Proof.
  intros R. destruct (take_invariant t R) as [L F].
  split; [exact L|]. split; [exact F|].
  split; [intros built; apply start_clears|].
  split; [intros b; exact (chunks_takeStep (DataAvailable b) t)|]. split.
  - intros e H. rewrite chunks_takeStep. destruct e; try reflexivity.
    destruct H as [N|[I|M]].
    + exfalso. exact (N built eq_refl).
    + rewrite I. reflexivity.
    + rewrite M. destruct (isRecording (prompter t)); reflexivity.
  - intros evs built I M N t'.
    set (t0 := takeStep (Ui (ClickRecord true)) t).
    set (t1 := runTake evs t0).
    destruct (start_clears true t I M) as [C0 _]. fold t0 in C0.
    assert (T0 : exists stream, take (prompter t0) = (true, Some stream)).
    { unfold t0. rewrite prompter_takeStep. simpl.
      unfold toggleRecording, startRecording, take. rewrite I.
      destruct (mediaStreamRef (prompter t)) as [stream|]; [|contradiction].
      exists stream. reflexivity. }
    destruct T0 as [stream T0].
    destruct (runTake_delivers evs t0 N) as [T1 C1]. fold t1 in T1, C1.
    rewrite T0 in T1. rewrite C0 in C1. simpl in C1.
    unfold take in T1. injection T1 as I1 M1.
    assert (I' : isRecording (prompter t') = false).
    { unfold t'. fold t0. fold t1. rewrite prompter_takeStep. simpl.
      unfold toggleRecording, stopRecording. rewrite I1, M1. reflexivity. }
    assert (C' : recordedChunks t' = delivered evs).
    { unfold t'. fold t0. fold t1. rewrite chunks_takeStep, I1. exact C1. }
    split; [exact I'|]. split; [exact C'|].
    assert (R' : reachableTake t').
    { unfold t'. apply take_step, reachableTake_run, take_step, R. }
    destruct (take_invariant t' R') as [L' _]. unfold linked in L'.
    rewrite L', I', C'. destruct (delivered evs); reflexivity.
Qed.

Lemma download_link_witness :
  let t2 := takeStep (Ui (ClickRecord true))
              (runTake [DataAvailable (mkBlob 0); DataAvailable (mkBlob 7);
                        Ui (Frame 16)]
                 (takeStep (Ui (ClickRecord true)) filmed)) in
  downloadUrl filming = None /\
  downloadUrl filmed = Some [mkBlob 5] /\
  recordedChunks (takeStep (Ui (ClickRecord true)) filmed) = [] /\
  downloadUrl (takeStep (Ui (ClickRecord true)) filmed) = None /\
  recordedChunks t2 = [mkBlob 7] /\
  downloadUrl t2 = Some [mkBlob 7].
Proof.
  cbv zeta.
  destruct (download_link filmed) as (L & _ & S & _ & _ & T);
    [apply reachableTake_run, reachableTake_run; constructor|].
  destruct (S true eq_refl) as [S1 S2]; [discriminate|].
  assert (N : Forall noRecordClick
                [DataAvailable (mkBlob 0); DataAvailable (mkBlob 7); Ui (Frame 16)])
    by (repeat constructor; discriminate).
  assert (M : mediaStreamRef (prompter filmed) <> None) by discriminate.
  pose proof (T _ true eq_refl M N) as T'. cbv zeta in T'.
  destruct T' as (_ & T2 & T3).
  split; [reflexivity|]. split; [exact L|]. split; [exact S1|].
  split; [exact S2|]. rewrite T2, T3. split; reflexivity.
Defined.

(** *** Keyboard shortcuts *)

Lemma state_eta (s : State) :
  mkState (scrollSpeed s) (silenceThresholdSeconds s) (isPlaying s) (isAutoPaused s)
    (currentVolume s) (micPermission s) (isCameraOn s) (isScreenShareOn s)
    (isRecording s) (containerRef s) (audioContextRef s) (analyserRef s)
    (lastNoiseTime s) (scrollAccumulator s) (videoPreviewRef s)
    (mediaStreamRef s) (mediaRecorderRef s) (effects s) = s.
Proof. destruct s; reflexivity. Qed.

(** X20.  A key event that matches none of the shortcuts changes
    nothing, and pressing Space twice restores the state.  The + and -
    keys undo each other as long as the speed stays inside [0, 20], and
    they leave the speed at 20, respectively at 0, once it is there. *)
Theorem keyboard_shortcuts (s : State) :
  (forall e, unbound e -> handleKeyDown e s = s) /\
  handleKeyDown spaceKey (handleKeyDown spaceKey s) = s /\
  (0 <= scrollSpeed s -> scrollSpeed s <= 39 # 2 ->
     scrollSpeed (handleKeyDown minusKey (handleKeyDown plusKey s)) == scrollSpeed s) /\
  (1 # 2 <= scrollSpeed s -> scrollSpeed s <= 20 ->
     scrollSpeed (handleKeyDown plusKey (handleKeyDown minusKey s)) == scrollSpeed s) /\
  (39 # 2 <= scrollSpeed s -> scrollSpeed (handleKeyDown plusKey s) == 20) /\
  (scrollSpeed s <= 1 # 2 -> scrollSpeed (handleKeyDown minusKey s) == 0).
Proof.
  split; [|split; [|split; [|split; [|split]]]].
  - intros e (U1 & U2 & U3 & U4 & U5 & U6 & U7 & U8 & U9).
    apply String.eqb_neq in U1, U2, U3, U4, U5, U6, U7, U8, U9.
    unfold handleKeyDown. rewrite U1, U2, U3, U4, U5, U6, U7, U8, U9. reflexivity.
  - unfold handleKeyDown, spaceKey. simpl. unfold set_isPlaying. simpl.
    rewrite negb_involutive. apply state_eta.
  - intros L U. unfold handleKeyDown, plusKey, minusKey.
    cbn [code key String.eqb Ascii.eqb Bool.eqb orb scrollSpeed set_scrollSpeed].
    rewrite (Q.min_r 20 (scrollSpeed s + (1#2))) by lra.
    rewrite Q.max_r by lra. lra.
  - intros L U. unfold handleKeyDown, plusKey, minusKey.
    cbn [code key String.eqb Ascii.eqb Bool.eqb orb scrollSpeed set_scrollSpeed].
    rewrite (Q.max_r 0 (scrollSpeed s - (1#2))) by lra.
    rewrite Q.min_r by lra. lra.
  - intros L. unfold handleKeyDown, plusKey.
    cbn [code key String.eqb Ascii.eqb Bool.eqb orb scrollSpeed set_scrollSpeed].
    apply Q.min_l. lra.
  - intros U. unfold handleKeyDown, minusKey.
    cbn [code key String.eqb Ascii.eqb Bool.eqb orb scrollSpeed set_scrollSpeed].
    apply Q.max_l. lra.
Qed.

(** *** Device listing *)

Example getDevices_two_cameras :
  getDevices (Some twoCameras) noHardware
  = mkHardware [mkDevice "abcdefgh" "Camera abcde"; mkDevice "cam-2" "Front"]
               [mkDevice "mic-1" "Desk mic"] "abcdefgh" "mic-1".
Proof. reflexivity. Qed.

Lemma named_label (prefix : string) (d : MediaDeviceInfo) :
  prefix <> ""%string -> label (named prefix d) <> ""%string.
Proof.
  intros P. unfold named, App.truthy. simpl.
  destruct (String.eqb_spec (infoLabel d) ""%string) as [E|N]; simpl; [|exact N].
  destruct prefix; [contradiction|discriminate].
Qed.

Lemma named_all (prefix : string) (l : list MediaDeviceInfo) :
  prefix <> ""%string ->
  map deviceId (map (named prefix) l) = map infoId l /\
  Forall (fun m => label m <> ""%string) (map (named prefix) l) /\
  (forall d, In d l -> infoLabel d <> ""%string ->
     In (mkDevice (infoId d) (infoLabel d)) (map (named prefix) l)).
Proof.
  intros P. split; [|split].
  - rewrite map_map. reflexivity.
  - apply Forall_map, Forall_forall. intros d _. apply named_label, P.
  - intros d I N. apply in_map_iff. exists d. split; [|exact I].
    unfold named, App.truthy. apply String.eqb_neq in N. rewrite N. reflexivity.
Qed.

(** X21.  A rejected permission or enumeration leaves the device lists
    and the selection as they were.  Otherwise the two lists hold, in the
    order of the enumeration, the video inputs and the audio inputs
    under their own ids; every entry has a non-empty label, a device
    that reports a label keeps it, and the first entry of each non-empty
    list becomes the selection. *)
Theorem device_listing (devices : list MediaDeviceInfo) (h : Hardware) :
  getDevices None h = h /\
  let h' := getDevices (Some devices) h in
  map deviceId (videoDevices h') = map infoId (filter isVideoInput devices) /\
  map deviceId (audioDevices h') = map infoId (filter isAudioInput devices) /\
  Forall (fun m => label m <> ""%string) (videoDevices h' ++ audioDevices h') /\
  (forall d, In d devices -> infoLabel d <> ""%string ->
     (isVideoInput d = true ->
        In (mkDevice (infoId d) (infoLabel d)) (videoDevices h')) /\
     (isAudioInput d = true ->
        In (mkDevice (infoId d) (infoLabel d)) (audioDevices h'))) /\
  selectedVideoId h' = hd (selectedVideoId h) (map deviceId (videoDevices h')) /\
  selectedAudioId h' = hd (selectedAudioId h) (map deviceId (audioDevices h')).
Proof.
  split; [reflexivity|]. cbv zeta. unfold getDevices.
  cbn [videoDevices audioDevices selectedVideoId selectedAudioId].
  destruct (named_all "Camera " (filter isVideoInput devices)) as (V1 & V2 & V3);
    [discriminate|].
  destruct (named_all "Mic " (filter isAudioInput devices)) as (A1 & A2 & A3);
    [discriminate|].
  split; [exact V1|]. split; [exact A1|].
  split; [apply Forall_app; split; assumption|]. split; [|split].
  - intros d I N. split; intros K.
    + apply V3; [apply filter_In; split; assumption|exact N].
    + apply A3; [apply filter_In; split; assumption|exact N].
  - destruct (map (named "Camera ") (filter isVideoInput devices)); reflexivity.
  - destruct (map (named "Mic ") (filter isAudioInput devices)); reflexivity.
Qed.

(** *** Scrolling across pauses *)

Lemma frames_mixed (nows : list Z) : forall s,
  containerRef s <> None -> isPlaying s = true -> 0 <= scrollSpeed s ->
  0 <= scrollAccumulator s -> scrollAccumulator s < 1 ->
  inject_Z (total (snd (frames nows s))) + scrollAccumulator (fst (frames nows s))
    == scrollAccumulator s
       + inject_Z (Z.of_nat (List.length (scrolledFrames nows s)))
         * (scrollSpeed s * (1#2)) /\
  0 <= scrollAccumulator (fst (frames nows s)) /\
  scrollAccumulator (fst (frames nows s)) < 1.
Proof.
  induction nows as [|now rest IH]; intros s C P V L U.
  - simpl. change (inject_Z 0) with 0. repeat split; try assumption. ring.
  - rewrite frames_cons. cbn [fst snd].
    change (total (snd (animate now s) :: snd (frames rest (fst (animate now s)))))
      with (snd (animate now s) + total (snd (frames rest (fst (animate now s)))))%Z.
    rewrite inject_Z_plus.
    destruct (animate_keeps now s) as (K & P' & C' & N').
    assert (F : scrolledFrames rest (fst (animate now s)) = scrolledFrames rest s).
    { unfold scrolledFrames. apply filter_ext. intros t. rewrite N'. reflexivity. }
    change (scrolledFrames (now :: rest) s)
      with (if negb (shouldPauseForSilence now s)
            then now :: scrolledFrames rest s else scrolledFrames rest s).
    destruct (shouldPauseForSilence now s) eqn:Sp; cbn [negb].
    + destruct (animate_paused now s Sp) as (D & _ & Kn).
      unfold knobs in Kn. injection Kn as _ _ Ka.
      destruct (IH (fst (animate now s))) as (E & R1 & R2);
        [auto|congruence|rewrite K; exact V|rewrite Ka; exact L
        |rewrite Ka; exact U|].
      rewrite F, K, Ka in E. rewrite D. change (inject_Z 0) with 0.
      split; [lra|split; assumption].
    + assert (Sc : scrolling [now] s).
      { repeat split; try assumption. intros t [<-|[]]. exact Sp. }
      destruct (animate_bounds now [] s Sc V L U) as (_ & L1 & U1 & _ & _).
      destruct (animate_scrolls now s C P Sp) as [_ A].
      destruct (IH (fst (animate now s))) as (E & R1 & R2);
        [auto|congruence|rewrite K; exact V|exact L1|exact U1|].
      rewrite F, K, A in E.
      change (List.length (now :: scrolledFrames rest s))
        with (S (List.length (scrolledFrames rest s))).
      rewrite Nat2Z.inj_succ. unfold Z.succ. rewrite inject_Z_plus.
      change (inject_Z 1) with 1.
      split; [lra|split; assumption].
Qed.

(** X22.  Pauses neither lose nor add distance: over any frames of a
    playing prompter, some of which pause for silence, starting from an
    empty accumulator at a non-negative speed, the amounts scrolled sum
    to [floor (k * speed * 0.5)] where k counts the frames that did not
    pause. *)
Theorem pauses_keep_distance (nows : list Z) (s : State) :
  containerRef s <> None -> isPlaying s = true ->
  0 <= scrollSpeed s -> scrollAccumulator s == 0 ->
  total (snd (frames nows s))
  = Qfloor (inject_Z (Z.of_nat (List.length (scrolledFrames nows s)))
            * scrollSpeed s * (1#2)).
Proof.
  intros C P V Z0.
  assert (L : 0 <= scrollAccumulator s) by lra.
  assert (U : scrollAccumulator s < 1) by lra.
  destruct (frames_mixed nows s C P V L U) as (E & R1 & R2).
  symmetry. apply Qfloor_unique;
    [|rewrite inject_Z_plus; change (inject_Z 1) with 1]; lra.
Qed.

Lemma pauses_keep_distance_witness :
  let s := run [SlideSpeed 3; ClickPlay] listening in
  let nows := [1000; 1500; 2001; 2500; 3000]%Z in
  scrolledFrames nows s = [1000; 1500]%Z /\
  snd (frames nows s) = [1; 2; 0; 0; 0]%Z /\
  total (snd (frames nows s)) = 3%Z.
Proof.
  cbv zeta. split; [reflexivity|]. split; [reflexivity|].
  rewrite (pauses_keep_distance [1000; 1500; 2001; 2500; 3000]%Z
             (run [SlideSpeed 3; ClickPlay] listening)).
  - reflexivity.
  - discriminate.
  - reflexivity.
  - discriminate.
  - reflexivity.
Defined.

End PrompterMore.

Section SelectionEdge.

Import App.

(** X23.  The select handler does not validate its argument.  With an id
    that no script carries selected, the editor shows no script and Start
    is disabled, the prompter would get the "No text available."
    placeholder, update and rename change no script, and delete on a
    store of at most one script clears nothing. *)
Theorem select_unknown_id (i j c t : string) (n1 n2 : Z) (st : Store) :
  ~ In i (ids st) ->
  let st' := handleSelectScript i st in
  Editor.activeScript st' = None /\
  Editor.startDisabled st' = true /\
  Editor.prompterScript st' = "No text available." /\
  handleUpdateScript c n1 st' = st' /\
  handleRenameScript t n1 st' = st' /\
  ((count st <= 1)%nat -> handleDeleteScript n1 n2 j st' = Done st').
Proof.
  intros N. cbv zeta.
  assert (A : Editor.activeScript (handleSelectScript i st) = None).
  { unfold Editor.activeScript; simpl.
    destruct (find _ (scripts st)) as [s|] eqn:E; [|reflexivity].
    apply find_some in E as [I E]. apply String.eqb_eq in E.
    exfalso. apply N. unfold ids. apply in_map_iff. eauto. }
  assert (U : forall f, map (fun s => if String.eqb (id s) i then f s else s)
                            (scripts st) = scripts st).
  { intros f. apply map_if_absent, N. }
  unfold Editor.startDisabled, Editor.prompterScript. rewrite A.
  unfold handleDeleteScript, handleUpdateScript, handleRenameScript,
    handleSelectScript; simpl.
  rewrite (U (withContent c n1)), (U (withTitle t n1)). repeat split.
  intros L. fold (count st). destruct (Nat.leb_spec (count st) 1); [|lia].
  rewrite (U (withContent "" n1)), (U (withTitle "Untitled Script" n2)).
  reflexivity.
Qed.

Lemma select_unknown_id_witness :
  let st := handleSelectScript "gone" (initStore None "a" 0) in
  Editor.startDisabled st = true /\
  handleUpdateScript "lost" 1 st = st /\
  handleDeleteScript 1 2 "a" st = Done st.
Proof.
  destruct (select_unknown_id "gone" "a" "lost" "t" 1 2 (initStore None "a" 0))
    as (_ & S & _ & U & _ & D).
  - cbn. intros [H|[]]. discriminate H.
  - cbv zeta. split; [exact S|]. split; [exact U|]. apply D. cbv. lia.
Defined.

End SelectionEdge.
